(** * The geofence bounds check of [src/components/map/VectorMap.tsx]

  A shallow embedding of [isWithinBounds], of the [Bounds] interface and of
  the constant [ETHIOPIA_BOUNDS], with the JavaScript values the function
  inspects at run time.  A JavaScript Number is an IEEE 754 binary64: it is
  modelled by Rocq's primitive [float], whose comparisons are the hardware
  ones, and its mathematical meaning is given in the extended rationals.

  The second part embeds the rest of the logic of the two components: the
  colour scale and the feature style of [VectorTileLayer], and the rows,
  axis bounds and tooltip of [AreaChartComponent]. *)

From Stdlib Require Import List Ascii.
From Stdlib Require Import ZArith QArith Qpower Bool String Lia Floats.
From Stdlib Require Uint63.

Local Open Scope Z_scope.

(** ** Extended rationals: the values a binary64 can denote *)

Module XRat.

Inductive xrat : Type :=
| NegInf
| Fin (q : Q)
| PosInf.

Definition le (a b : xrat) : Prop :=
  match a, b with
  | NegInf, _ => True
  | _, PosInf => True
  | Fin p, Fin q => (p <= q)%Q
  | _, _ => False
  end.

Definition lt (a b : xrat) : Prop :=
  match a, b with
  | NegInf, NegInf => False
  | NegInf, _ => True
  | PosInf, _ => False
  | Fin _, NegInf => False
  | Fin p, Fin q => (p < q)%Q
  | Fin _, PosInf => True
  end.

(** Three-way comparison, the shape the IEEE comparison predicate has. *)
Definition compare (a b : xrat) : comparison :=
  match a, b with
  | NegInf, NegInf => Eq
  | NegInf, _ => Lt
  | Fin _, NegInf => Gt
  | Fin p, Fin q => (p ?= q)%Q
  | Fin _, PosInf => Lt
  | PosInf, PosInf => Eq
  | PosInf, _ => Gt
  end.

(** Comparisons whose operands may be missing (NaN denotes nothing):
    they hold only between two denoted values. *)
Definition ole (a b : option xrat) : Prop :=
  match a, b with
  | Some a, Some b => le a b
  | _, _ => False
  end.

Definition olt (a b : option xrat) : Prop :=
  match a, b with
  | Some a, Some b => lt a b
  | _, _ => False
  end.

End XRat.

(** ** Binary64 numbers *)

Module Number.

Import XRat.

(** The rational [(-1)^s * m * 2^e]. *)
Definition finite_value (s : bool) (m : positive) (e : Z) : Q :=
  (inject_Z (cond_Zopp s (Zpos m)) * (2 # 1) ^ e)%Q.

Definition SFvalue (x : spec_float) : option xrat :=
  match x with
  | S754_nan => None
  | S754_zero _ => Some (Fin 0)
  | S754_infinity s => Some (if s then NegInf else PosInf)
  | S754_finite s m e => Some (Fin (finite_value s m e))
  end.

(** Every finite binary64 is a whole number of units of [2^-1074]. *)
Definition units (x : spec_float) : Z :=
  match x with
  | S754_finite s m e => cond_Zopp s (Zpos m * 2 ^ (e + 1074))
  | _ => 0
  end.

Definition unit_size : Q := (2 # 1) ^ (-1074).

Definition is_finite_sf (x : spec_float) : bool :=
  match x with
  | S754_finite _ _ _ | S754_zero _ => true
  | _ => false
  end.

(** The meaning of a Number: [None] for NaN. *)
Definition value (x : float) : option xrat := SFvalue (Prim2SF x).

(** [x >= y] and [x <= y] on Numbers (IEEE 754 compareGreaterEqual and
    compareLessEqual; both are false as soon as an operand is NaN). *)
Definition ge (x y : float) : bool := (y <=? x)%float.
Definition le (x y : float) : bool := (x <=? y)%float.
Definition lt (x y : float) : bool := (x <? y)%float.
Definition gt (x y : float) : bool := (y <? x)%float.
(** [x === y] on Numbers. *)
Definition strict_eq (x y : float) : bool := (x =? y)%float.

End Number.

(** ** JavaScript values, as far as [typeof] tells them apart *)

Module JS.

Inductive value : Type :=
| VUndefined
| VNull
| VBoolean (b : bool)
| VNumber (x : float)
| VString (s : string)
| VBigInt (n : Z)
| VSymbol (description : string)
| VObject (address : positive)
| VFunction (address : positive).

(** The [typeof] operator. *)
Definition typeof (v : value) : string :=
  match v with
  | VUndefined => "undefined"
  | VNull => "object"
  | VBoolean _ => "boolean"
  | VNumber _ => "number"
  | VString _ => "string"
  | VBigInt _ => "bigint"
  | VSymbol _ => "symbol"
  | VObject _ => "object"
  | VFunction _ => "function"
  end.

(** [s !== t] on strings. *)
Definition strict_ne (s t : string) : bool := negb (String.eqb s t).

(** The Number held by a value whose type has been narrowed to [number];
    no implicit coercion is modelled, so any other value has none. *)
Definition as_number (v : value) : option float :=
  match v with
  | VNumber x => Some x
  | _ => None
  end.

End JS.

Import JS.

(** ** The source: [Bounds], [ETHIOPIA_BOUNDS], [isWithinBounds] *)

Record Bounds : Type := mkBounds {
  north : float;
  south : float;
  east : float;
  west : float
}.

Definition ETHIOPIA_BOUNDS : Bounds :=
  {| north := 15.0; south := 3.5; east := 48.0; west := 33.0 |}.

(** [isWithinBounds(lat, lng, bounds = ETHIOPIA_BOUNDS)].  The coordinates are
    arbitrary run-time values, since the body tests their [typeof]; [bounds]
    is [None] when the argument is omitted (or [undefined]) and the default
    initialiser applies.  The result is [None] only if a comparison were to
    meet an operand that is not a Number. *)
Definition isWithinBounds (lat lng : value) (bounds : option Bounds) : option bool :=
  let bounds := match bounds with Some b => b | None => ETHIOPIA_BOUNDS end in
  if strict_ne (typeof lat) "number" || strict_ne (typeof lng) "number" then
    Some false
  else
    match as_number lat, as_number lng with
    | Some lat, Some lng =>
        Some (Number.ge lat (south bounds) && Number.le lat (north bounds)
              && Number.ge lng (west bounds) && Number.le lng (east bounds))
    | _, _ => None
    end.

(** ** The specification's vocabulary *)

(** The Number [x] denotes the rational [q]. *)
Definition denotes (x : float) (q : Q) : Prop :=
  exists p, Number.value x = Some (XRat.Fin p) /\ (p == q)%Q.

(** [x] lies in the closed interval [[lo, hi]], as a statement about the
    numbers denoted. *)
Definition within_closed (lo hi x : float) : Prop :=
  XRat.ole (Number.value lo) (Number.value x) /\
  XRat.ole (Number.value x) (Number.value hi).

(** The point is in the rectangle, edges included. *)
Definition in_rectangle (b : Bounds) (lat lng : float) : Prop :=
  within_closed (south b) (north b) lat /\ within_closed (west b) (east b) lng.

(** The point is inside the rectangle and on none of its edges. *)
Definition strictly_inside (b : Bounds) (lat lng : float) : Prop :=
  XRat.olt (Number.value (south b)) (Number.value lat) /\
  XRat.olt (Number.value lat) (Number.value (north b)) /\
  XRat.olt (Number.value (west b)) (Number.value lng) /\
  XRat.olt (Number.value lng) (Number.value (east b)).

(** The point is strictly beyond one of the four sides. *)
Definition strictly_outside (b : Bounds) (lat lng : float) : Prop :=
  XRat.olt (Number.value lat) (Number.value (south b)) \/
  XRat.olt (Number.value (north b)) (Number.value lat) \/
  XRat.olt (Number.value lng) (Number.value (west b)) \/
  XRat.olt (Number.value (east b)) (Number.value lng).

(** The point lies exactly on an edge line: one coordinate equals a boundary
    and the other is inside its own range. *)
Definition on_boundary (b : Bounds) (lat lng : float) : Prop :=
  ((Number.strict_eq lat (north b) = true \/ Number.strict_eq lat (south b) = true)
   /\ within_closed (west b) (east b) lng)
  \/
  ((Number.strict_eq lng (west b) = true \/ Number.strict_eq lng (east b) = true)
   /\ within_closed (south b) (north b) lat).

(** The invariant the specification leaves to the caller. *)
Definition bounds_invariant (b : Bounds) : Prop :=
  Number.gt (north b) (south b) = true /\ Number.gt (east b) (west b) = true.

(** The invariant broken on one axis. *)
Definition bounds_inverted (b : Bounds) : Prop :=
  Number.lt (north b) (south b) = true \/ Number.lt (east b) (west b) = true.

(** [b1] is contained in [b2]. *)
Definition bounds_contained (b1 b2 : Bounds) : Prop :=
  Number.le (south b2) (south b1) = true /\ Number.le (north b1) (north b2) = true /\
  Number.le (west b2) (west b1) = true /\ Number.le (east b1) (east b2) = true.

(** A value [typeof] does not report as a number. *)
Definition non_numeric (v : value) : Prop := typeof v <> "number"%string.

(** ** Sample inputs *)

(** A rectangle whose north edge lies south of its south edge. *)
Definition inverted_bounds : Bounds :=
  {| north := 0.0; south := 10.0; east := 10.0; west := 0.0 |}.

(** A rectangle reaching further east than the default one. *)
Definition wider_bounds : Bounds :=
  {| north := 15.0; south := 3.5; east := 55.0; west := 33.0 |}.

(** ** The call at run time: the bounds argument and the heap *)

(** What a caller can pass for [bounds]: nothing (or [undefined]), [null],
    or a reference to an object holding the four Number fields of [Bounds]. *)
Inductive bounds_arg : Type :=
| ArgUndefined
| ArgNull
| ArgObject (address : positive).

(** The objects of the heap, by address, each with its four fields. *)
Definition heap : Type := positive -> Bounds.

(** The address of the object the constant [ETHIOPIA_BOUNDS] is bound to. *)
Definition ETHIOPIA_ADDRESS : positive := 1%positive.

(** The module has been loaded and nothing has written to its constant. *)
Definition module_loaded (h : heap) : Prop := h ETHIOPIA_ADDRESS = ETHIOPIA_BOUNDS.

Inductive completion : Type :=
| Return (result : bool)
| ThrowTypeError.

(** The object [bounds] refers to in the body: the default initialiser
    replaces [undefined] only, and [null] refers to none. *)
Definition resolve (bounds : bounds_arg) : option positive :=
  match bounds with
  | ArgUndefined => Some ETHIOPIA_ADDRESS
  | ArgNull => None
  | ArgObject address => Some address
  end.

(** A call of [isWithinBounds] in a heap: the completion and the heap it
    leaves.  When a coordinate is not a Number the guard returns before
    [bounds] is read; otherwise [bounds.south] is read first, which throws on
    [null]. *)
Definition isWithinBounds_call (lat lng : value) (bounds : bounds_arg) (h : heap)
    : completion * heap :=
  match lat, lng with
  | VNumber lat, VNumber lng =>
      match resolve bounds with
      | Some address =>
          let b := h address in
          (Return (Number.ge lat (south b) && Number.le lat (north b)
                   && Number.ge lng (west b) && Number.le lng (east b)), h)
      | None => (ThrowTypeError, h)
      end
  | _, _ => (Return false, h)
  end.

(** A heap with the module's constant and, at address 2, an inverted
    rectangle. *)
Definition sample_heap : heap :=
  fun address => if Pos.eqb address 2 then inverted_bounds else ETHIOPIA_BOUNDS.

(** ** Rounding to binary64 *)

(** Bits were lost in the shifts so far. *)
Definition inexact (r : shr_record) : bool := shr_r r || shr_s r.

(** The exponent function of binary64: 53 bits of precision, smallest
    exponent -1074. *)
Definition fexp64 (e : Z) : Z := Z.max (e - 53) (-1074).

Definition is_exact (l : location) : bool :=
  match l with loc_Exact => true | _ => false end.

(** The exponent of the binade [mx * 2^ex] falls in. *)
Definition grid (mx ex : Z) : Z := fexp64 (Zdigits2 mx + ex).

(** What [binary_round_aux] returns, in terms of the rounded mantissa [m2]
    on the grid [2^e1]. *)
Definition round_result (s : bool) (m2 e1 : Z) (R : spec_float) : Prop :=
  match R with
  | S754_zero s' => s' = s /\ m2 = 0
  | S754_finite s' m3 e3 => s' = s /\ e1 <= e3 /\ Zpos m3 * 2 ^ (e3 - e1) = m2
  | S754_infinity s' => s' = s /\ 0 < m2 /\ 2 ^ (1024 - e1) <= m2
  | S754_nan => False
  end.

Definition is_nan_sf (x : spec_float) : bool :=
  match x with S754_nan => true | _ => false end.

(** The sign of a rounded result is the sign given. *)
Definition has_sign (s : bool) (R : spec_float) : Prop :=
  match R with
  | S754_zero s' | S754_infinity s' | S754_finite s' _ _ => s' = s
  | S754_nan => False
  end.

(** The Numbers 1 and 2. *)
Definition one_sf : spec_float := S754_finite false 4503599627370496 (-52).
Definition two_sf : spec_float := S754_finite false 4503599627370496 (-51).

(** A Number that is neither NaN nor infinite, and its value in units of
    [2^-1074]. *)
Definition finite (x : float) : bool := Number.is_finite_sf (Prim2SF x).
Definition units_of (x : float) : Z := Number.units (Prim2SF x).

(** ** The Math object and Number methods the components use *)

Module JSMath.

(** The sign bit of a Number ([false] for NaN). *)
Definition sign_bit (x : float) : bool :=
  match Prim2SF x with
  | S754_zero s | S754_infinity s | S754_finite s _ _ => s
  | S754_nan => false
  end.

Definition is_pos_zero (x : float) : bool := is_zero x && negb (sign_bit x).
Definition is_neg_zero (x : float) : bool := is_zero x && sign_bit x.

(** [Math.max(...args)]: start from -Infinity; a NaN argument gives NaN;
    +0 replaces -0; a greater argument replaces the highest so far. *)
Fixpoint max_loop (highest : float) (coerced : list float) : float :=
  match coerced with
  | nil => highest
  | number :: rest =>
      if is_nan number then PrimFloat.nan
      else
        let highest :=
          if is_pos_zero number && is_neg_zero highest then PrimFloat.zero else highest in
        let highest := if (highest <? number)%float then number else highest in
        max_loop highest rest
  end.

Definition Math_max (args : list float) : float := max_loop PrimFloat.neg_infinity args.

(** [Math.min(...args)], the mirror image, from +Infinity. *)
Fixpoint min_loop (lowest : float) (coerced : list float) : float :=
  match coerced with
  | nil => lowest
  | number :: rest =>
      if is_nan number then PrimFloat.nan
      else
        let lowest :=
          if is_neg_zero number && is_pos_zero lowest then PrimFloat.neg_zero else lowest in
        let lowest := if (number <? lowest)%float then number else lowest in
        min_loop lowest rest
  end.

Definition Math_min (args : list float) : float := min_loop PrimFloat.infinity args.

(** The Number whose value is the integer [n], for [|n| < 2^63]. *)
Definition of_integer (n : Z) : float :=
  if n <? 0 then (- of_uint63 (Uint63.of_Z (- n)))%float
  else of_uint63 (Uint63.of_Z n).

(** [Math.round(x)]: [x] itself when it is not finite or already integral;
    otherwise the integer [floor(x + 1/2)], computed exactly, a zero result
    keeping the sign of [x]. *)
Definition Math_round (x : float) : float :=
  match Prim2SF x with
  | S754_finite s m e =>
      if 0 <=? e then x
      else
        let n := (2 * cond_Zopp s (Zpos m) + 2 ^ (- e)) / 2 ^ (1 - e) in
        if n =? 0 then (if s then PrimFloat.neg_zero else PrimFloat.zero) else of_integer n
  | _ => x
  end.

Definition hex_digit (d : Z) : ascii :=
  nth (Z.to_nat d)
      ("0" :: "1" :: "2" :: "3" :: "4" :: "5" :: "6" :: "7" :: "8" :: "9"
           :: "a" :: "b" :: "c" :: "d" :: "e" :: "f" :: nil)%char "0"%char.

(** The digits of [n >= 0] in base 16, most significant first. *)
Fixpoint hex_digits (fuel : nat) (n : Z) (acc : string) : string :=
  match fuel with
  | O => acc
  | S fuel' =>
      let acc' := String (hex_digit (n mod 16)) acc in
      if n / 16 =? 0 then acc' else hex_digits fuel' (n / 16) acc'
  end.

Definition to_hex (n : Z) : string := hex_digits (S (Z.to_nat (Z.log2 n))) n "".

(** The integer a Number is, if it is one: its units are a multiple of
    [2^1074]. *)
Definition integral_value (x : spec_float) : option Z :=
  match x with
  | S754_zero _ | S754_finite _ _ _ =>
      if Number.units x mod 2 ^ 1074 =? 0 then Some (Number.units x / 2 ^ 1074) else None
  | _ => None
  end.

(** [x.toString(16)].  Modelled for NaN, the infinities and the integers of
    magnitude below [2^53]; the digits of other Numbers are left out
    ([None]). *)
Definition Number_toString16 (x : float) : option string :=
  match Prim2SF x with
  | S754_nan => Some "NaN"%string
  | S754_infinity s => Some (if s then "-Infinity" else "Infinity")%string
  | sf =>
      match integral_value sf with
      | Some n =>
          if Z.abs n <? 2 ^ 53
          then Some ((if (n <? 0)%Z then "-" else "") ++ to_hex (Z.abs n))%string
          else None
      | None => None
      end
  end.

Fixpoint repeat_string (n : nat) (s : string) : string :=
  match n with
  | O => EmptyString
  | S n' => (s ++ repeat_string n' s)%string
  end.

(** [s.padStart(targetLength, padString)]. *)
Definition padStart (s : string) (targetLength : nat) (padString : string) : string :=
  let len := String.length s in
  if (targetLength <=? len)%nat then s
  else if (String.length padString =? 0)%nat then s
  else
    let fillLen := (targetLength - len)%nat in
    (substring 0 fillLen (repeat_string fillLen padString) ++ s)%string.

End JSMath.

Import JSMath.

(** ** The colour of a score, [getColorByScore] of [VectorTileLayer] *)

Definition getColorByScore (score : float) : option string :=
  let t := Math_max (0 :: Math_min (1 :: ((score + 1) / 2) :: nil) :: nil)%float in
  let r := Math_round ((1 - t) * 255)%float in
  let g := Math_round (t * 255)%float in
  match Number_toString16 r, Number_toString16 g with
  | Some rs, Some gs =>
      Some ("#" ++ padStart rs 2 "0" ++ padStart gs 2 "0" ++ "00")%string
  | _, _ => None
  end.

(** Two lowercase hexadecimal digits. *)
Definition hex_byte (n : Z) : string :=
  String (hex_digit (n / 16)) (String (hex_digit (n mod 16)) EmptyString).

(** ** The data shaping of [AreaChartComponent] *)

(** An item of [nvdiScoresdata] or [nvdi75Scoredata]: the fields the
    component reads. *)
Record ScoreItem : Type := mkScoreItem {
  year : string;
  score : float
}.

(** A row of [chartData]. *)
Record ChartRow : Type := mkChartRow {
  row_year : string;
  row_score : float;
  row_score75 : float
}.

(** A Number is truthy unless it is NaN, +0 or -0. *)
Definition truthy (x : float) : bool := negb (is_nan x || is_zero x).

(** [nvdi75Scoredata[index]?.score || 0]. *)
Definition score75_at (nvdi75Scoredata : list ScoreItem) (index : nat) : float :=
  match nth_error nvdi75Scoredata index with
  | Some item => if truthy (score item) then score item else 0%float
  | None => 0%float
  end.

(** [nvdiScoresdata.map((item, index) => ...)], from position [index]. *)
Fixpoint format_rows (index : nat) (items : list ScoreItem)
    (nvdi75Scoredata : list ScoreItem) : list ChartRow :=
  match items with
  | nil => nil
  | item :: rest =>
      {| row_year := year item;
         row_score := score item;
         row_score75 := score75_at nvdi75Scoredata index |}
        :: format_rows (S index) rest nvdi75Scoredata
  end.

(** The state the effect writes. *)
Record ChartState : Type := mkChartState {
  loading : bool;
  chartData : list ChartRow;
  ymax : float;
  ymin : float
}.

Definition initial_state : ChartState :=
  {| loading := true; chartData := nil; ymax := 1%float; ymin := (-1)%float |}.

Inductive effect_result : Type :=
| Unchanged
| Updated (st : ChartState)
| TypeError.

(** The effect run on [nvdiScoresdata]: nothing happens while the data is
    absent; indexing an absent [nvdi75Scoredata] from the map callback
    throws; otherwise the rows and the axis bounds are set. *)
Definition on_scores (nvdiScoresdata nvdi75Scoredata : option (list ScoreItem))
    : effect_result :=
  match nvdiScoresdata with
  | None => Unchanged
  | Some items =>
      match items, nvdi75Scoredata with
      | _ :: _, None => TypeError
      | _, _ =>
          let series75 := match nvdi75Scoredata with Some l => l | None => nil end in
          Updated
            {| loading := false;
               chartData := format_rows 0 items series75;
               ymax := (Math_max (map score items) + 2)%float;
               ymin := (Math_min (map score items) - 2)%float |}
      end
  end.

(** ** The tooltip of the chart, [CustomTooltip] *)

(** What the tooltip is made of: a [div] with a class and, inside it,
    texts, Numbers and line breaks. *)
Inductive jsx_child : Type :=
| JText (s : string)
| JNumber (x : float)
| JBreak.

Record jsx : Type := JElement {
  tag : string;
  className : string;
  children : list jsx_child
}.

Record TooltipEntry : Type := mkTooltipEntry {
  entry_value : float
}.

Inductive render_result : Type :=
| Rendered (element : option jsx)
| RenderError.

(** [CustomTooltip({ active, payload })]: [null] unless the tooltip is active
    with a non-empty payload; reading [payload[1].value] from a payload of a
    single entry throws. *)
Definition CustomTooltip (active : option bool) (payload : option (list TooltipEntry))
    : render_result :=
  match active, payload with
  | Some true, Some entries =>
      if (0 <? List.length entries)%nat then
        match nth_error entries 1 with
        | None => RenderError
        | Some quantile =>
            match nth_error entries 0 with
            | None => RenderError
            | Some average =>
                Rendered (Some (JElement "div"
                  "rounded-md bg-zinc-800/90 px-3 py-1.5 text-xs text-white shadow-sm"
                  (JText "Evaluated quantile score: " :: JNumber (entry_value quantile)
                     :: JText " " :: JBreak
                     :: JText "Evaluated average score: " :: JNumber (entry_value average)
                     :: nil)))
            end
        end
      else Rendered None
  | _, _ => Rendered None
  end.

(** ** The style of a vector-tile feature, from [VectorTileLayer] *)

(** [ToBoolean]. *)
Definition to_boolean (v : value) : bool :=
  match v with
  | VUndefined | VNull => false
  | VBoolean b => b
  | VNumber x => truthy x
  | VString s => negb (String.length s =? 0)%nat
  | VBigInt n => negb (n =? 0)
  | VSymbol _ | VObject _ | VFunction _ => true
  end.

(** [a || b], [a ?? b] and [a != null]. *)
Definition js_or (a b : value) : value := if to_boolean a then a else b.

Definition is_nullish (v : value) : bool :=
  match v with VUndefined | VNull => true | _ => false end.

Definition nullish_coalesce (a b : value) : value := if is_nullish a then b else a.

(** The properties of a feature the style reads; an absent property is
    [VUndefined]. *)
Record FeatureProps : Type := mkFeatureProps {
  prop_outlineColor : value;
  prop_weight : value;
  prop_score : value;
  prop_color : value;
  prop_opacity : value;
  prop_radius : value
}.

Record PathStyle : Type := mkPathStyle {
  style_fill : bool;
  style_color : value;
  style_weight : value;
  style_fillColor : option value;
  style_fillOpacity : value;
  style_radius : value
}.

(** The style function installed for each data layer.  [getColorByScore]
    is modelled on Numbers, so the fill colour of a score of another type
    is left out ([None]). *)
Definition feature_style (props : FeatureProps) : PathStyle :=
  {| style_fill := true;
     style_color := js_or (prop_outlineColor props) (VString "transparent");
     style_weight := nullish_coalesce (prop_weight props) (VNumber 1);
     style_fillColor :=
       if negb (is_nullish (prop_score props)) then
         match as_number (prop_score props) with
         | Some x => option_map VString (getColorByScore x)
         | None => None
         end
       else Some (js_or (prop_color props) (VString "transparent"));
     style_fillOpacity :=
       nullish_coalesce (prop_opacity props) (VNumber 0x1.3333333333333p-1);
     style_radius := nullish_coalesce (prop_radius props) (VNumber 10) |}.

(** ** Binary64 numbers and their order *)

Section Binary64.

Import XRat Number.

Lemma unit_size_pos : (0 < unit_size)%Q.
Proof. apply Qpower_0_lt. reflexivity. Qed.

Lemma digits2_pos_bounds (m : positive) :
  2 ^ (Zpos (digits2_pos m) - 1) <= Zpos m < 2 ^ Zpos (digits2_pos m).
Proof.
  induction m as [p IH | p IH |]; cbn [digits2_pos].
  - rewrite Pos2Z.inj_succ.
    replace (Z.succ (Zpos (digits2_pos p)) - 1) with (Z.succ (Zpos (digits2_pos p) - 1)) by lia.
    rewrite !Z.pow_succ_r by lia. lia.
  - rewrite Pos2Z.inj_succ.
    replace (Z.succ (Zpos (digits2_pos p)) - 1) with (Z.succ (Zpos (digits2_pos p) - 1)) by lia.
    rewrite !Z.pow_succ_r by lia. lia.
  - cbn. lia.
Qed.

(** What canonicity gives: the exponent is at least [emin], the mantissa
    has at most 53 bits, and exactly 53 above [emin] (a normal number). *)
Lemma bounded_inv (m : positive) (e : Z) :
  bounded prec emax m e = true ->
  -1074 <= e /\ Zpos m < 2 ^ 53 /\ (e = -1074 \/ 2 ^ 52 <= Zpos m).
Proof.
  unfold bounded, canonical_mantissa, fexp, emin, prec, emax.
  intros H. apply andb_prop in H. destruct H as [H _].
  apply Z.eqb_eq in H.
  pose proof (digits2_pos_bounds m) as [Hlo Hhi].
  set (d := Zpos (digits2_pos m)) in *.
  assert (Hd : d <= 53) by lia.
  split; [lia|]. split.
  - apply Z.lt_le_trans with (1 := Hhi). apply Z.pow_le_mono_r; lia.
  - destruct (Z.eq_dec e (-1074)) as [He | He]; [now left | right].
    assert (d = 53) by lia.
    replace 52 with (d - 1) by lia. exact Hlo.
Qed.

(** Between canonical mantissas the exponent decides the order. *)
Lemma canonical_exponent_lt (m1 m2 : positive) (e1 e2 : Z) :
  bounded prec emax m1 e1 = true ->
  bounded prec emax m2 e2 = true ->
  e1 < e2 ->
  Zpos m1 * 2 ^ (e1 + 1074) < Zpos m2 * 2 ^ (e2 + 1074).
Proof.
  intros H1 H2 Hlt.
  apply bounded_inv in H1. destruct H1 as (Hlo1 & Hm1 & _).
  apply bounded_inv in H2. destruct H2 as (Hlo2 & _ & [He2 | Hm2]); [lia|].
  replace (e2 + 1074) with ((e2 - e1 - 1) + 1 + (e1 + 1074)) by lia.
  rewrite (Z.pow_add_r 2 (e2 - e1 - 1 + 1)) by lia.
  rewrite (Z.pow_add_r 2 (e2 - e1 - 1) 1) by lia.
  change (2 ^ 1) with 2.
  change (2 ^ 53) with (2 * 2 ^ 52) in Hm1.
  assert (HP : 0 < 2 ^ (e1 + 1074)) by (apply Z.pow_pos_nonneg; lia).
  assert (HK : 0 < 2 ^ (e2 - e1 - 1)) by (apply Z.pow_pos_nonneg; lia).
  set (P := 2 ^ (e1 + 1074)) in *. set (K := 2 ^ (e2 - e1 - 1)) in *.
  set (T := 2 ^ 52) in *.
  apply Z.lt_le_trans with (2 * T * P).
  - apply Z.mul_lt_mono_pos_r; assumption.
  - rewrite (Z.mul_assoc (Zpos m2)). apply Z.mul_le_mono_nonneg_r; [lia|].
    apply Z.le_trans with (Zpos m2 * 2); [lia|].
    rewrite (Z.mul_comm K 2), Z.mul_assoc.
    rewrite <- (Z.mul_1_r (Zpos m2 * 2)) at 1.
    apply Z.mul_le_mono_nonneg_l; lia.
Qed.

Lemma compare_magnitudes (m1 m2 : positive) (e1 e2 : Z) :
  bounded prec emax m1 e1 = true ->
  bounded prec emax m2 e2 = true ->
  match e1 ?= e2 with
  | Lt => Lt
  | Gt => Gt
  | Eq => Pos.compare_cont Eq m1 m2
  end = (Zpos m1 * 2 ^ (e1 + 1074) ?= Zpos m2 * 2 ^ (e2 + 1074)).
Proof.
  intros H1 H2. symmetry.
  destruct (Z.compare_spec e1 e2) as [He | He | He].
  - subst e2. apply bounded_inv in H1. destruct H1 as (Hlo & _ & _).
    assert (HP : 0 < 2 ^ (e1 + 1074)) by (apply Z.pow_pos_nonneg; lia).
    rewrite Pos.compare_cont_spec. cbn [Pos.switch_Eq].
    change (m1 ?= m2)%positive with (Zpos m1 ?= Zpos m2).
    destruct (Z.compare_spec (Zpos m1) (Zpos m2)) as [E | E | E].
    + rewrite E. apply Z.compare_refl.
    + apply Z.compare_lt_iff. nia.
    + apply Z.compare_gt_iff. nia.
  - apply Z.compare_lt_iff. now apply canonical_exponent_lt.
  - apply Z.compare_gt_iff. now apply canonical_exponent_lt.
Qed.

(** The IEEE comparison of two finite numbers compares their units. *)
Lemma SFcompare_units (x y : spec_float) :
  valid_binary x = true -> valid_binary y = true ->
  is_finite_sf x = true -> is_finite_sf y = true ->
  SFcompare x y = Some (units x ?= units y).
Proof.
  intros Vx Vy Fx Fy.
  destruct x as [sx | sx | | sx mx ex]; try discriminate Fx;
  destruct y as [sy | sy | | sy my ey]; try discriminate Fy;
  cbn [SFcompare units valid_binary] in *.
  - reflexivity.
  - f_equal. symmetry.
    assert (0 < Zpos my * 2 ^ (ey + 1074)).
    { apply bounded_inv in Vy. apply Z.mul_pos_pos; [lia|]. apply Z.pow_pos_nonneg; lia. }
    destruct sy; cbn [cond_Zopp];
      [apply Z.compare_gt_iff | apply Z.compare_lt_iff]; lia.
  - f_equal. symmetry.
    assert (0 < Zpos mx * 2 ^ (ex + 1074)).
    { apply bounded_inv in Vx. apply Z.mul_pos_pos; [lia|]. apply Z.pow_pos_nonneg; lia. }
    destruct sx; cbn [cond_Zopp];
      [apply Z.compare_lt_iff | apply Z.compare_gt_iff]; lia.
  - f_equal.
    assert (0 < Zpos mx * 2 ^ (ex + 1074)).
    { apply bounded_inv in Vx. apply Z.mul_pos_pos; [lia|]. apply Z.pow_pos_nonneg; lia. }
    assert (0 < Zpos my * 2 ^ (ey + 1074)).
    { apply bounded_inv in Vy. apply Z.mul_pos_pos; [lia|]. apply Z.pow_pos_nonneg; lia. }
    destruct sx, sy; cbn [cond_Zopp].
    + rewrite Z.compare_opp.
      rewrite <- (compare_magnitudes my mx ey ex Vy Vx).
      rewrite (Z.compare_antisym ey ex).
      destruct (ey ?= ex); cbn [CompOpp]; try reflexivity.
      rewrite !Pos.compare_cont_spec, (Pos.compare_antisym mx my).
      now destruct (mx ?= my)%positive.
    + symmetry. apply Z.compare_lt_iff. lia.
    + symmetry. apply Z.compare_gt_iff. lia.
    + now apply compare_magnitudes.
Qed.

Lemma finite_value_units (s : bool) (m : positive) (e : Z) :
  -1074 <= e ->
  (Number.finite_value s m e == inject_Z (units (S754_finite s m e)) * unit_size)%Q.
Proof.
  intros He. unfold Number.finite_value, unit_size. cbn [units].
  replace (cond_Zopp s (Zpos m * 2 ^ (e + 1074)))
    with (cond_Zopp s (Zpos m) * 2 ^ (e + 1074))
    by (destruct s; cbn [cond_Zopp]; lia).
  rewrite inject_Z_mult, Zpower_Qpower by lia.
  rewrite <- Qmult_assoc, <- Qpower_plus by discriminate.
  replace (e + 1074 + -1074) with e by lia.
  reflexivity.
Qed.

Lemma Qcompare_scaled (a b : Z) (c : Q) :
  (0 < c)%Q -> (inject_Z a * c ?= inject_Z b * c)%Q = (a ?= b).
Proof.
  intros Hc. destruct (Z.compare_spec a b) as [E | E | E].
  - subst b. apply Qeq_alt. reflexivity.
  - apply Qlt_alt, Qmult_lt_compat_r; [exact Hc|]. now rewrite <- Zlt_Qlt.
  - apply Qgt_alt, Qmult_lt_compat_r; [exact Hc|]. now rewrite <- Zlt_Qlt.
Qed.

(** The value of a finite number, zero included, in units. *)
Lemma SFvalue_units (x : spec_float) :
  valid_binary x = true -> is_finite_sf x = true ->
  exists q, Number.SFvalue x = Some (Fin q) /\ (q == inject_Z (units x) * unit_size)%Q.
Proof.
  intros V F. destruct x as [s | s | | s m e]; try discriminate F.
  - exists 0%Q. split; [reflexivity|]. cbn [units]. now rewrite Qmult_0_l.
  - exists (Number.finite_value s m e). split; [reflexivity|].
    apply finite_value_units. cbn [valid_binary] in V. apply bounded_inv in V. lia.
Qed.

(** The IEEE comparison predicate is the comparison of the values denoted,
    and is undefined exactly when an operand denotes nothing. *)
Lemma SFcompare_value (x y : spec_float) :
  valid_binary x = true -> valid_binary y = true ->
  SFcompare x y =
  match Number.SFvalue x, Number.SFvalue y with
  | Some a, Some b => Some (XRat.compare a b)
  | _, _ => None
  end.
Proof.
  intros Vx Vy.
  destruct (is_finite_sf x) eqn:Fx; [destruct (is_finite_sf y) eqn:Fy|].
  - rewrite (SFcompare_units x y Vx Vy Fx Fy).
    destruct (SFvalue_units x Vx Fx) as (p & -> & Hp).
    destruct (SFvalue_units y Vy Fy) as (q & -> & Hq).
    cbn [XRat.compare]. f_equal.
    rewrite Hp, Hq. symmetry. apply Qcompare_scaled, unit_size_pos.
  - destruct x as [sx | sx | | sx mx ex]; try discriminate Fx;
    destruct y as [sy | sy | | sy my ey]; try discriminate Fy;
    try reflexivity; now destruct sy.
  - destruct x as [sx | sx | | sx mx ex]; try discriminate Fx;
    destruct y as [sy | sy | | sy my ey]; try reflexivity;
    now destruct sx; try destruct sy.
Qed.

End Binary64.

(** ** Order facts on extended rationals *)

Section XRatFacts.

Import XRat.

Lemma xle_compare (a b : xrat) : le a b <-> XRat.compare a b <> Gt.
Proof.
  destruct a, b; cbn [le XRat.compare]; try (split; [discriminate | exact (fun _ => I)]);
    try (split; [contradiction | intros H; now elim H]).
  apply Qle_alt.
Qed.

Lemma xlt_compare (a b : xrat) : lt a b <-> XRat.compare a b = Lt.
Proof.
  destruct a, b; cbn [lt XRat.compare]; try (split; [reflexivity | exact (fun _ => I)]);
    try (split; [contradiction | discriminate]).
  apply Qlt_alt.
Qed.

Lemma xle_refl (a : xrat) : le a a.
Proof. destruct a; cbn [le]; auto using Qle_refl. Qed.

Lemma xle_trans (a b c : xrat) : le a b -> le b c -> le a c.
Proof.
  destruct a, b, c; cbn [le]; try tauto. apply Qle_trans.
Qed.

Lemma xlt_le (a b : xrat) : lt a b -> le a b.
Proof. destruct a, b; cbn [lt le]; try tauto. apply Qlt_le_weak. Qed.

Lemma xlt_not_le (a b : xrat) : lt a b -> ~ le b a.
Proof. destruct a, b; cbn [lt le]; try tauto. apply Qlt_not_le. Qed.

Lemma ole_refl (a : option xrat) : a <> None -> ole a a.
Proof. destruct a; [intros _; apply xle_refl | congruence]. Qed.

Lemma ole_trans (a b c : option xrat) : ole a b -> ole b c -> ole a c.
Proof.
  destruct a, b, c; cbn [ole]; try tauto. apply xle_trans.
Qed.

Lemma olt_ole (a b : option xrat) : olt a b -> ole a b.
Proof. destruct a, b; cbn [olt ole]; try tauto. apply xlt_le. Qed.

Lemma olt_not_ole (a b : option xrat) : olt a b -> ~ ole b a.
Proof. destruct a, b; cbn [olt ole]; try tauto. apply xlt_not_le. Qed.

Lemma ole_defined (a b : option xrat) : ole a b -> a <> None /\ b <> None.
Proof. destruct a, b; cbn [ole]; try tauto. intros _. split; discriminate. Qed.

End XRatFacts.

(** ** The comparisons of Numbers are the order of their values *)

Section NumberFacts.

Import XRat.

Lemma compare_value (x y : float) :
  SFcompare (Prim2SF x) (Prim2SF y) =
  match Number.value x, Number.value y with
  | Some a, Some b => Some (XRat.compare a b)
  | _, _ => None
  end.
Proof. apply SFcompare_value; apply Prim2SF_valid. Qed.

Lemma le_value (x y : float) :
  Number.le x y = true <-> ole (Number.value x) (Number.value y).
Proof.
  unfold Number.le. rewrite leb_spec. unfold SFleb. rewrite compare_value.
  destruct (Number.value x) as [a|], (Number.value y) as [b|]; cbn [ole];
    try (split; [discriminate | contradiction]).
  rewrite xle_compare.
  destruct (XRat.compare a b); split; congruence.
Qed.

Lemma ge_value (x y : float) :
  Number.ge x y = true <-> ole (Number.value y) (Number.value x).
Proof. exact (le_value y x). Qed.

Lemma lt_value (x y : float) :
  Number.lt x y = true <-> olt (Number.value x) (Number.value y).
Proof.
  unfold Number.lt. rewrite ltb_spec. unfold SFltb. rewrite compare_value.
  destruct (Number.value x) as [a|], (Number.value y) as [b|]; cbn [olt];
    try (split; [discriminate | contradiction]).
  rewrite xlt_compare.
  destruct (XRat.compare a b); split; congruence.
Qed.

Lemma gt_value (x y : float) :
  Number.gt x y = true <-> olt (Number.value y) (Number.value x).
Proof. exact (lt_value y x). Qed.

(** [===] on Numbers implies [<=] both ways. *)
Lemma strict_eq_le (x y : float) :
  Number.strict_eq x y = true -> Number.le x y = true /\ Number.le y x = true.
Proof.
  unfold Number.strict_eq, Number.le. rewrite eqb_spec, !leb_spec.
  unfold SFeqb, SFleb. rewrite !compare_value.
  destruct (Number.value x) as [a|], (Number.value y) as [b|]; try discriminate.
  destruct (XRat.compare a b) eqn:E; try discriminate. intros _.
  split; [reflexivity|].
  destruct a as [|p|], b as [|q|]; cbn [XRat.compare] in *; try discriminate; try reflexivity.
  rewrite <- Qcompare_antisym, E. reflexivity.
Qed.

Lemma number_le_trans (x y z : float) :
  Number.le x y = true -> Number.le y z = true -> Number.le x z = true.
Proof. rewrite !le_value. apply ole_trans. Qed.

End NumberFacts.

(** ** The function on its two paths *)

Section Paths.

Lemma typeof_number_inv (v : value) :
  typeof v = "number"%string <-> exists x, v = VNumber x.
Proof.
  split.
  - destruct v; cbn [typeof]; try discriminate. intros _. now eexists.
  - intros [x ->]. reflexivity.
Qed.

(** The guard fires: a coordinate is not a Number. *)
Lemma isWithinBounds_guard (lat lng : value) (bounds : option Bounds) :
  non_numeric lat \/ non_numeric lng ->
  isWithinBounds lat lng bounds = Some false.
Proof.
  unfold non_numeric, isWithinBounds, strict_ne.
  intros [H | H]; apply String.eqb_neq in H; rewrite H; cbn [negb orb].
  - reflexivity.
  - now rewrite orb_true_r.
Qed.

(** The guard passes: both coordinates are Numbers. *)
Lemma isWithinBounds_numbers (lat lng : float) (bounds : option Bounds) :
  isWithinBounds (VNumber lat) (VNumber lng) bounds =
  let b := match bounds with Some b => b | None => ETHIOPIA_BOUNDS end in
  Some (Number.ge lat (south b) && Number.le lat (north b)
        && Number.ge lng (west b) && Number.le lng (east b)).
Proof. reflexivity. Qed.

Lemma isWithinBounds_true_iff (lat lng : float) (b : Bounds) :
  isWithinBounds (VNumber lat) (VNumber lng) (Some b) = Some true <->
  in_rectangle b lat lng.
Proof.
  rewrite isWithinBounds_numbers. cbv zeta.
  unfold in_rectangle, within_closed.
  rewrite <- !le_value. unfold Number.ge, Number.le.
  split.
  - intros H. injection H as H.
    repeat (apply andb_prop in H; destruct H as [H ?]). tauto.
  - intros [[-> ->] [-> ->]]. reflexivity.
Qed.

Lemma isWithinBounds_cases (lat lng : value) :
  (non_numeric lat \/ non_numeric lng) \/
  (exists x y, lat = VNumber x /\ lng = VNumber y).
Proof.
  destruct lat; try (left; left; discriminate).
  destruct lng; try (left; right; discriminate).
  right. eauto.
Qed.

Lemma default_bounds (lat lng : value) :
  isWithinBounds lat lng None = isWithinBounds lat lng (Some ETHIOPIA_BOUNDS).
Proof. reflexivity. Qed.

End Paths.

(** ** Containment *)

Section Containment.

Import XRat.

Lemma strictly_inside_in_rectangle (b : Bounds) (lat lng : float) :
  strictly_inside b lat lng -> in_rectangle b lat lng.
Proof.
  intros (H1 & H2 & H3 & H4). repeat split; now apply olt_ole.
Qed.

Lemma strictly_outside_not_in_rectangle (b : Bounds) (lat lng : float) :
  strictly_outside b lat lng -> ~ in_rectangle b lat lng.
Proof.
  intros H [[L1 L2] [G1 G2]].
  destruct H as [H | [H | [H | H]]]; apply olt_not_ole in H; contradiction.
Qed.

Lemma isWithinBounds_false_iff (lat lng : float) (b : Bounds) :
  isWithinBounds (VNumber lat) (VNumber lng) (Some b) = Some false <->
  ~ in_rectangle b lat lng.
Proof.
  rewrite <- isWithinBounds_true_iff, isWithinBounds_numbers. cbv zeta.
  destruct (_ && _); split; congruence.
Qed.

(** C1: on Numbers [lat], [lng] and any bounds [b], [isWithinBounds] returns
    [true] exactly when [lat] is in [[b.south, b.north]] and [lng] in
    [[b.west, b.east]], ends included, and [false] otherwise; with the
    default bounds every point strictly inside the rectangle gives [true] and
    every point strictly beyond one of its four sides gives [false]. *)
Theorem isWithinBounds_iff_in_rectangle (lat lng : float) (b : Bounds) :
  (isWithinBounds (VNumber lat) (VNumber lng) (Some b) = Some true <->
   in_rectangle b lat lng)
  /\ (isWithinBounds (VNumber lat) (VNumber lng) (Some b) = Some false <->
      ~ in_rectangle b lat lng)
  /\ (strictly_inside ETHIOPIA_BOUNDS lat lng ->
      isWithinBounds (VNumber lat) (VNumber lng) None = Some true)
  /\ (strictly_outside ETHIOPIA_BOUNDS lat lng ->
      isWithinBounds (VNumber lat) (VNumber lng) None = Some false).
Proof.
  split; [apply isWithinBounds_true_iff|].
  split; [apply isWithinBounds_false_iff|].
  split; intros H; rewrite default_bounds.
  - now apply isWithinBounds_true_iff, strictly_inside_in_rectangle.
  - now apply isWithinBounds_false_iff, strictly_outside_not_in_rectangle.
Qed.

Lemma isWithinBounds_iff_in_rectangle_witness :
  strictly_inside ETHIOPIA_BOUNDS 9.0 40.0 /\
  isWithinBounds (VNumber 9.0) (VNumber 40.0) None = Some true.
Proof.
  assert (H : strictly_inside ETHIOPIA_BOUNDS 9.0 40.0)
    by (vm_compute; repeat split; reflexivity).
  split; [exact H|].
  exact (proj1 (proj2 (proj2 (isWithinBounds_iff_in_rectangle 9.0 40.0 ETHIOPIA_BOUNDS))) H).
Defined.

(** C2, as stated, fails: with the inverted rectangle north=0, south=10,
    the point (0, 5) has its latitude equal to [north] and its longitude
    inside [[west, east]], and the function returns [false]. *)
Lemma boundary_of_inverted_bounds_is_outside :
  on_boundary inverted_bounds 0.0 5.0 /\
  isWithinBounds (VNumber 0.0) (VNumber 5.0) (Some inverted_bounds) = Some false.
Proof.
  split; [|reflexivity].
  left. split; [left; reflexivity|].
  vm_compute. split; discriminate.
Qed.

(** C2 (amended): for every bounds [b] with [south <= north] and
    [west <= east], a point lying exactly on a boundary -- one coordinate
    equal to an edge, the other inside its own range -- gives [true]: the
    test is inclusive. *)
Theorem boundary_is_inside (b : Bounds) (lat lng : float) :
  Number.le (south b) (north b) = true ->
  Number.le (west b) (east b) = true ->
  on_boundary b lat lng ->
  isWithinBounds (VNumber lat) (VNumber lng) (Some b) = Some true.
Proof.
  intros Hsn Hwe Hon. apply isWithinBounds_true_iff.
  unfold in_rectangle, within_closed. rewrite <- !le_value.
  destruct Hon as [[Hlat [Hw He]] | [Hlng [Hs Hn]]].
  - apply le_value in Hw, He.
    destruct Hlat as [E | E]; apply strict_eq_le in E; destruct E as [E1 E2];
      repeat split; eauto using number_le_trans.
  - apply le_value in Hs, Hn.
    destruct Hlng as [E | E]; apply strict_eq_le in E; destruct E as [E1 E2];
      repeat split; eauto using number_le_trans.
Qed.

Lemma boundary_is_inside_witness :
  on_boundary ETHIOPIA_BOUNDS 3.5 40.0 /\
  isWithinBounds (VNumber 3.5) (VNumber 40.0) (Some ETHIOPIA_BOUNDS) = Some true.
Proof.
  assert (H : on_boundary ETHIOPIA_BOUNDS 3.5 40.0).
  { left. split; [right; reflexivity|]. vm_compute. split; discriminate. }
  split; [exact H|].
  exact (boundary_is_inside ETHIOPIA_BOUNDS 3.5 40.0 eq_refl eq_refl H).
Defined.

End Containment.

(** ** The type guard *)

Section Guard.





(** C4: the five scenarios of the specification under the default bounds:
    (9, 40) is inside, (9, 50) is east of the range, (3.5, 40) is on the south
    edge and inside, (2, 40) is south of the range, and the text "9" is not
    a Number. *)
Theorem isWithinBounds_scenarios :
  isWithinBounds (VNumber 9.0) (VNumber 40.0) None = Some true
  /\ isWithinBounds (VNumber 9.0) (VNumber 50.0) None = Some false
  /\ isWithinBounds (VNumber 3.5) (VNumber 40.0) None = Some true
  /\ isWithinBounds (VNumber 2.0) (VNumber 40.0) None = Some false
  /\ isWithinBounds (VString "9") (VNumber 40.0) None = Some false.
Proof. repeat split; vm_compute; reflexivity. Qed.

End Guard.

(** ** The default rectangle *)

Section Default.

Import XRat.

Lemma denotes_eval (x : float) (p q : Q) :
  Number.value x = Some (Fin p) -> (p == q)%Q -> denotes x q.
Proof. intros Hx Hq. exists p. now split. Qed.

(** C5: the bounds argument is optional; when omitted it is the constant
    [ETHIOPIA_BOUNDS], whose edges are north 15, south 3.5, east 48 and
    west 33, so [isWithinBounds(lat, lng)] is
    [isWithinBounds(lat, lng, ETHIOPIA_BOUNDS)]. *)
Theorem default_bounds_is_ETHIOPIA_BOUNDS :
  (forall lat lng : value,
     isWithinBounds lat lng None = isWithinBounds lat lng (Some ETHIOPIA_BOUNDS))
  /\ ETHIOPIA_BOUNDS = {| north := 15.0; south := 3.5; east := 48.0; west := 33.0 |}
  /\ denotes (north ETHIOPIA_BOUNDS) 15
  /\ denotes (south ETHIOPIA_BOUNDS) (7 # 2)
  /\ denotes (east ETHIOPIA_BOUNDS) 48
  /\ denotes (west ETHIOPIA_BOUNDS) 33.
Proof.
  split; [exact default_bounds|].
  split; [reflexivity|].
  repeat split; (eapply denotes_eval; [vm_compute; reflexivity | reflexivity]).
Qed.

(** C6: custom bounds take the place of the default ones: the point (9, 50)
    is outside the default rectangle, so the two-argument call gives
    [false], and inside a rectangle reaching to 55 east, with which the call
    gives [true]. *)
Theorem custom_bounds_override_default :
  exists (lat lng : float) (b : Bounds),
    strictly_outside ETHIOPIA_BOUNDS lat lng
    /\ in_rectangle b lat lng
    /\ isWithinBounds (VNumber lat) (VNumber lng) None = Some false
    /\ isWithinBounds (VNumber lat) (VNumber lng) (Some b) = Some true.
Proof.
  exists 9.0%float, 50.0%float, wider_bounds.
  split; [|split; [|split; reflexivity]].
  - right. right. right. vm_compute. reflexivity.
  - vm_compute. repeat split; discriminate.
Qed.

(** C8: the default constant satisfies the invariant of Bounds: its north
    (15) is strictly greater than its south (3.5) and its east (48) strictly
    greater than its west (33). *)
Theorem ETHIOPIA_BOUNDS_invariant :
  bounds_invariant ETHIOPIA_BOUNDS
  /\ olt (Number.value (south ETHIOPIA_BOUNDS)) (Number.value (north ETHIOPIA_BOUNDS))
  /\ olt (Number.value (west ETHIOPIA_BOUNDS)) (Number.value (east ETHIOPIA_BOUNDS)).
Proof.
  assert (H : bounds_invariant ETHIOPIA_BOUNDS) by (split; reflexivity).
  split; [exact H|]. destruct H as [Hn He].
  split; now apply gt_value.
Qed.

End Default.

(** ** Totality, empty rectangles and monotonicity *)

Section Rectangles.

Import XRat.

Lemma le_nan_l (x y : float) : Number.value x = None -> Number.le x y = false.
Proof.
  intros Hx. destruct (Number.le x y) eqn:E; [|reflexivity].
  apply le_value in E. rewrite Hx in E. contradiction.
Qed.

Lemma le_nan_r (x y : float) : Number.value y = None -> Number.le x y = false.
Proof.
  intros Hy. destruct (Number.le x y) eqn:E; [|reflexivity].
  apply le_value in E. rewrite Hy in E. now destruct (Number.value x).
Qed.

Lemma nan_has_no_value : Number.value nan = None.
Proof. reflexivity. Qed.

(** The call agrees with the function on the object it is given. *)
Lemma isWithinBounds_call_object (lat lng : value) (address : positive) (h : heap) (r : bool) :
  isWithinBounds_call lat lng (ArgObject address) h = (Return r, h) <->
  isWithinBounds lat lng (Some (h address)) = Some r.
Proof.
  destruct (isWithinBounds_cases lat lng) as [H | (x & y & -> & ->)].
  - rewrite (isWithinBounds_guard lat lng _ H).
    assert (E : isWithinBounds_call lat lng (ArgObject address) h = (Return false, h)).
    { unfold non_numeric in H. destruct lat; try reflexivity.
      destruct lng; try reflexivity. destruct H as [H | H]; now elim H. }
    rewrite E. split; congruence.
  - rewrite isWithinBounds_numbers. cbv zeta. cbn [isWithinBounds_call resolve].
    split; congruence.
Qed.

(** The guard returns before [bounds] is read, [null] included. *)
Lemma isWithinBounds_call_guard (lat lng : value) (bounds : bounds_arg) (h : heap) :
  non_numeric lat \/ non_numeric lng ->
  isWithinBounds_call lat lng bounds h = (Return false, h).
Proof.
  unfold non_numeric. intros H. destruct lat; try reflexivity.
  destruct lng; try reflexivity. destruct H as [H | H]; now elim H.
Qed.

(** An omitted argument is the module's constant. *)
Lemma isWithinBounds_call_default (lat lng : value) (h : heap) (r : bool) :
  module_loaded h ->
  (isWithinBounds_call lat lng ArgUndefined h = (Return r, h) <->
   isWithinBounds lat lng None = Some r).
Proof.
  intros Hm. rewrite default_bounds, <- Hm.
  apply (isWithinBounds_call_object lat lng ETHIOPIA_ADDRESS h r).
Qed.

(** C7, as stated, fails: with Number coordinates and [null] for the
    bounds, reading [bounds.south] throws a TypeError. *)
Lemma null_bounds_throw :
  isWithinBounds_call (VNumber 9.0) (VNumber 40.0) ArgNull sample_heap =
  (ThrowTypeError, sample_heap).
Proof. reflexivity. Qed.

(** C7 (amended): on its declared interface -- any two coordinates, Numbers
    or not, NaN included, and a bounds argument that is omitted or an object
    of four Numbers, whatever they are -- a call of [isWithinBounds] returns
    a boolean and never throws; it leaves the heap as it was; the same
    arguments give the same result in every heap that holds the same object;
    that result is the one of [isWithinBounds] on the object's fields; and a
    NaN coordinate gives [false]. *)
Theorem isWithinBounds_call_total (lat lng : value) (bounds : bounds_arg) (h : heap) :
  bounds <> ArgNull ->
  exists r : bool,
    isWithinBounds_call lat lng bounds h = (Return r, h)
    /\ (forall h' : heap,
          (forall address, resolve bounds = Some address -> h' address = h address) ->
          isWithinBounds_call lat lng bounds h' = (Return r, h'))
    /\ (forall address,
          resolve bounds = Some address ->
          isWithinBounds lat lng (Some (h address)) = Some r)
    /\ (forall x y : float,
          lat = VNumber x -> lng = VNumber y ->
          Number.value x = None \/ Number.value y = None ->
          r = false).
Proof.
  intros Hnull.
  assert (Hres : exists address, resolve bounds = Some address).
  { destruct bounds; [now eexists | now elim Hnull | now eexists]. }
  destruct Hres as [address Hres].
  destruct (isWithinBounds_cases lat lng) as [H | (x & y & -> & ->)].
  - exists false. split; [now apply isWithinBounds_call_guard|]. split; [|split].
    + intros h' _. now apply isWithinBounds_call_guard.
    + intros a _. now apply isWithinBounds_guard.
    + intros x y -> -> _. reflexivity.
  - unfold isWithinBounds_call. rewrite Hres. cbv zeta.
    eexists. split; [reflexivity|]. split; [|split].
    + intros h' Hh. now rewrite (Hh address eq_refl).
    + intros a Ha. injection Ha as <-. now rewrite isWithinBounds_numbers.
    + intros x' y' Ex Ey Hnan. injection Ex as <-. injection Ey as <-.
      unfold Number.ge. destruct Hnan as [Hnan | Hnan].
      * now rewrite (le_nan_r _ x Hnan).
      * rewrite (le_nan_r _ y Hnan). apply andb_false_iff. left. apply andb_false_r.
Qed.

Lemma isWithinBounds_call_total_witness :
  exists r : bool,
    isWithinBounds_call (VNumber nan) (VNumber 40.0) (ArgObject 2) sample_heap =
    (Return r, sample_heap)
    /\ (forall h' : heap,
          (forall address, resolve (ArgObject 2) = Some address ->
                           h' address = sample_heap address) ->
          isWithinBounds_call (VNumber nan) (VNumber 40.0) (ArgObject 2) h' = (Return r, h'))
    /\ (forall address,
          resolve (ArgObject 2) = Some address ->
          isWithinBounds (VNumber nan) (VNumber 40.0) (Some (sample_heap address)) = Some r)
    /\ (forall x y : float,
          VNumber nan = VNumber x -> VNumber 40.0 = VNumber y ->
          Number.value x = None \/ Number.value y = None ->
          r = false).
Proof.
  apply (isWithinBounds_call_total (VNumber nan) (VNumber 40.0) (ArgObject 2) sample_heap).
  discriminate.
Defined.

(** C9: when the invariant of Bounds is broken -- [north < south] or
    [east < west] -- the rectangle is empty: [isWithinBounds] returns
    [false] for every latitude and longitude, and still returns. *)
Theorem inverted_bounds_are_empty (lat lng : value) (b : Bounds) :
  bounds_inverted b -> isWithinBounds lat lng (Some b) = Some false.
Proof.
  intros Hinv.
  destruct (isWithinBounds_cases lat lng) as [H | (x & y & -> & ->)].
  - now apply isWithinBounds_guard.
  - apply isWithinBounds_false_iff. intros [[H1 H2] [H3 H4]].
    destruct Hinv as [Hlt | Hlt]; apply lt_value, olt_not_ole in Hlt; apply Hlt.
    + exact (ole_trans _ _ _ H1 H2).
    + exact (ole_trans _ _ _ H3 H4).
Qed.

Lemma inverted_bounds_are_empty_witness :
  bounds_inverted inverted_bounds /\
  isWithinBounds (VNumber 5.0) (VNumber 5.0) (Some inverted_bounds) = Some false.
Proof.
  assert (H : bounds_inverted inverted_bounds) by (left; reflexivity).
  split; [exact H|].
  exact (inverted_bounds_are_empty (VNumber 5.0) (VNumber 5.0) inverted_bounds H).
Defined.

(** C10: [isWithinBounds] is monotone in the bounds: if [b1] is contained
    in [b2], a point accepted with [b1] is accepted with [b2]. *)
Theorem isWithinBounds_monotone (lat lng : value) (b1 b2 : Bounds) :
  bounds_contained b1 b2 ->
  isWithinBounds lat lng (Some b1) = Some true ->
  isWithinBounds lat lng (Some b2) = Some true.
Proof.
  intros (Hs & Hn & Hw & He) H1.
  destruct (isWithinBounds_cases lat lng) as [H | (x & y & -> & ->)].
  - rewrite (isWithinBounds_guard _ _ _ H) in H1. discriminate H1.
  - apply isWithinBounds_true_iff in H1. apply isWithinBounds_true_iff.
    apply le_value in Hs, Hn, Hw, He.
    destruct H1 as [[L1 L2] [G1 G2]].
    repeat split; eauto using ole_trans.
Qed.

Lemma isWithinBounds_monotone_witness :
  bounds_contained ETHIOPIA_BOUNDS wider_bounds /\
  isWithinBounds (VNumber 9.0) (VNumber 40.0) (Some wider_bounds) = Some true.
Proof.
  assert (H : bounds_contained ETHIOPIA_BOUNDS wider_bounds)
    by (repeat split; reflexivity).
  split; [exact H|].
  exact (isWithinBounds_monotone (VNumber 9.0) (VNumber 40.0)
           ETHIOPIA_BOUNDS wider_bounds H eq_refl).
Defined.

End Rectangles.

(** * The rest of the components: colours, chart rows and axis bounds *)

(** ** Rounding to binary64 never crosses a representable number *)

Lemma fexp64_eq e : fexp prec emax e = fexp64 e.
Proof. reflexivity. Qed.

Lemma Zdigits2_log2 (n : Z) : 0 < n -> Zdigits2 n = Z.log2 n + 1.
Proof.
  destruct n as [|p|p]; try lia. intros _. cbn [Zdigits2].
  pose proof (digits2_pos_bounds p) as [Hlo Hhi].
  symmetry. rewrite (Z.log2_unique (Zpos p) (Zpos (digits2_pos p) - 1)); try lia.
  split; [exact Hlo|]. now replace (Z.succ (Zpos (digits2_pos p) - 1)) with (Zpos (digits2_pos p)) by lia.
Qed.

Lemma Zdigits2_nonneg (n : Z) : 0 <= Zdigits2 n.
Proof. destruct n; cbn; lia. Qed.

Lemma shr_1_m (r : shr_record) : 0 <= shr_m r -> shr_m (shr_1 r) = shr_m r / 2.
Proof.
  destruct r as [m r s]. cbn [shr_m]. intros Hm.
  destruct m as [|[p|p|]|p]; cbn [shr_1 shr_m]; try lia; try reflexivity.
  - apply Z.div_unique with 1; lia.
  - apply Z.div_unique with 0; lia.
Qed.

Lemma shr_1_inexact (r : shr_record) :
  0 <= shr_m r -> inexact (shr_1 r) = inexact r || Z.odd (shr_m r).
Proof.
  destruct r as [m r s]. cbn [shr_m]. intros Hm. unfold inexact.
  destruct m as [|[p|p|]|p]; cbn [shr_1 shr_m shr_r shr_s Z.odd]; try lia;
    destruct r, s; reflexivity.
Qed.

Lemma iter_pos_nat {A : Type} (f : A -> A) (p : positive) (x : A) :
  iter_pos f p x = Nat.iter (Pos.to_nat p) f x.
Proof.
  revert x. induction p as [p IH | p IH |]; intros x; cbn [iter_pos].
  - rewrite !IH, Pos2Nat.inj_xI.
    replace (S (2 * Pos.to_nat p))%nat with (Pos.to_nat p + Pos.to_nat p + 1)%nat by lia.
    rewrite !Nat.iter_add. reflexivity.
  - rewrite !IH, Pos2Nat.inj_xO.
    replace (2 * Pos.to_nat p)%nat with (Pos.to_nat p + Pos.to_nat p)%nat by lia.
    now rewrite Nat.iter_add.
  - reflexivity.
Qed.

Lemma shr_iter (n : nat) (r : shr_record) :
  0 <= shr_m r ->
  shr_m (Nat.iter n shr_1 r) = shr_m r / 2 ^ Z.of_nat n /\
  inexact (Nat.iter n shr_1 r) = inexact r || negb (shr_m r mod 2 ^ Z.of_nat n =? 0).
Proof.
  intros Hm. induction n as [|n [IHm IHi]].
  - change (Nat.iter 0 shr_1 r) with r. change (2 ^ Z.of_nat 0) with 1. rewrite Z.div_1_r, Z.mod_1_r.
    split; [reflexivity|]. cbn. now rewrite orb_false_r.
  - rewrite Nat.iter_succ.
    assert (Hpos : 0 < 2 ^ Z.of_nat n) by (apply Z.pow_pos_nonneg; lia).
    assert (H0 : 0 <= shr_m (Nat.iter n shr_1 r)).
    { rewrite IHm. apply Z.div_pos; lia. }
    rewrite shr_1_m, shr_1_inexact, IHm, IHi by assumption.
    rewrite Nat2Z.inj_succ, Z.pow_succ_r by lia.
    split.
    + rewrite Z.div_div by lia. f_equal. lia.
    + rewrite <- orb_assoc. f_equal.
      set (m := shr_m r) in *. set (P := 2 ^ Z.of_nat n) in *.
      rewrite (Z.mul_comm 2 P), Z.rem_mul_r by lia.
      rewrite Zodd_mod.
      pose proof (Z.mod_pos_bound m P Hpos).
      pose proof (Z.mod_pos_bound (m / P) 2 ltac:(lia)).
      destruct (Z.eqb_spec (m mod P) 0) as [E|E];
      destruct (Z.eqb_spec ((m / P) mod 2) 1) as [E1|E1];
      destruct (Z.eqb_spec (m mod P + P * ((m / P) mod 2)) 0) as [E2|E2];
        cbn; try reflexivity; exfalso; nia.
Qed.

Lemma inexact_of_loc (m : Z) (l : location) :
  inexact (shr_record_of_loc m l) = negb (is_exact l) /\
  shr_m (shr_record_of_loc m l) = m.
Proof. destruct l as [|[| |]]; split; reflexivity. Qed.

Lemma shr_fexp_spec (mx ex : Z) (l : location) :
  0 <= mx ->
  let k := Z.max 0 (grid mx ex - ex) in
  exists r,
    shr_fexp prec emax mx ex l = (r, ex + k) /\
    shr_m r = mx / 2 ^ k /\
    inexact r = negb (is_exact l) || negb (mx mod 2 ^ k =? 0).
Proof.
  intros Hm k. unfold shr_fexp. rewrite fexp64_eq. fold (grid mx ex).
  destruct (inexact_of_loc mx l) as [Hi Hr].
  destruct (grid mx ex - ex) as [|p|p] eqn:E; subst k; cbn [shr Z.max Z.compare].
  - eexists; split; [rewrite Z.add_0_r; reflexivity|].
    change (2 ^ 0) with 1. rewrite Z.div_1_r, Z.mod_1_r, Hr, Hi. cbn. now rewrite orb_false_r.
  - eexists; split; [reflexivity|].
    rewrite iter_pos_nat.
    destruct (shr_iter (Pos.to_nat p) (shr_record_of_loc mx l)) as [H1 H2]; [now rewrite Hr|].
    rewrite positive_nat_Z, Hr, Hi in *. now split.
  - eexists; split; [rewrite Z.add_0_r; reflexivity|].
    change (2 ^ 0) with 1. rewrite Z.div_1_r, Z.mod_1_r, Hr, Hi. cbn. now rewrite orb_false_r.
Qed.

Lemma round_nearest_even_spec (r : shr_record) :
  let m2 := round_nearest_even (shr_m r) (loc_of_shr_record r) in
  m2 = shr_m r \/ (inexact r = true /\ m2 = shr_m r + 1).
Proof.
  destruct r as [m [|] [|]]; cbn [round_nearest_even loc_of_shr_record shr_m inexact shr_r shr_s orb];
    try (left; reflexivity); try (right; split; reflexivity).
  destruct (Z.even m); [left | right]; auto.
Qed.

Lemma log2_succ_cases (a : Z) :
  0 < a ->
  Z.log2 (a + 1) = Z.log2 a \/
  (Z.log2 (a + 1) = Z.log2 a + 1 /\ a + 1 = 2 ^ (Z.log2 a + 1)).
Proof.
  intros Ha. pose proof (Z.log2_spec a Ha) as [Hlo Hhi].
  pose proof (Z.log2_nonneg a).
  destruct (Z.lt_ge_cases (a + 1) (2 ^ Z.succ (Z.log2 a))) as [Hlt | Hge].
  - left. apply Z.log2_unique; lia.
  - right. assert (E : a + 1 = 2 ^ (Z.log2 a + 1)) by (unfold Z.succ in *; lia).
    split; [|exact E]. rewrite E. apply Z.log2_pow2. lia.
Qed.

Lemma Zdigits2_le (n b : Z) : 0 <= b -> 0 <= n < 2 ^ b -> Zdigits2 n <= b.
Proof.
  intros Hb [H0 Hn]. destruct (Z.eq_dec n 0) as [-> | Hne]; [cbn; lia|].
  rewrite Zdigits2_log2 by lia.
  apply (Z.log2_lt_pow2 n b) in Hn; lia.
Qed.

Lemma round_tail_spec (s : bool) (m2 e1 : Z) :
  -1074 <= e1 -> 0 <= m2 <= 2 ^ 53 -> e1 = -1074 \/ 2 ^ 52 <= m2 ->
  round_result s m2 e1
    (let '(r, e) := shr_fexp prec emax m2 e1 loc_Exact in
     match shr_m r with
     | Z0 => S754_zero s
     | Zpos m => if e <=? emax - prec then S754_finite s m e else S754_infinity s
     | Zneg _ => S754_nan
     end).
Proof.
  intros He [Hm0 Hm] Hn.
  destruct (shr_fexp_spec m2 e1 loc_Exact Hm0) as (r & -> & Hr & _).
  cbv beta iota. change (emax - prec) with 971.
  destruct (Z.eq_dec m2 (2 ^ 53)) as [E | E].
  - (* the rounding carried into a 54th bit *)
    subst m2.
    assert (Hk : Z.max 0 (grid (2 ^ 53) e1 - e1) = 1).
    { unfold grid, fexp64. rewrite Zdigits2_log2, Z.log2_pow2 by lia. lia. }
    rewrite Hk in *.
    change (2 ^ 53 / 2 ^ 1) with (Zpos (2 ^ 52)) in Hr. rewrite Hr.
    destruct (Z.leb_spec (e1 + 1) 971) as [Hle | Hgt]; cbn [round_result].
    + repeat split; try lia. replace (e1 + 1 - e1) with 1 by lia. reflexivity.
    + repeat split; try lia. apply Z.pow_le_mono_r; lia.
  - assert (Hd : Zdigits2 m2 <= 53) by (apply Zdigits2_le; lia).
    assert (Hk : Z.max 0 (grid m2 e1 - e1) = 0) by (unfold grid, fexp64; lia).
    rewrite Hk in *.
    change (2 ^ 0) with 1 in Hr. rewrite Z.div_1_r in Hr. rewrite Hr, Z.add_0_r.
    destruct m2 as [|p|p]; [| |lia]; cbn [round_result].
    + split; reflexivity.
    + destruct (Z.leb_spec e1 971) as [Hle | Hgt]; cbn [round_result].
      * repeat split; try lia. rewrite Z.sub_diag. lia.
      * repeat split; try lia. destruct Hn as [Hn | Hn]; [lia|].
        apply Z.le_trans with (2 := Hn). apply Z.pow_le_mono_r; lia.
Qed.

Lemma round_aux_spec (s : bool) (mx ex : Z) (l : location) :
  0 <= mx -> ex <= grid mx ex ->
  let e1 := grid mx ex in
  let k := e1 - ex in
  exists m2,
    (m2 = mx / 2 ^ k \/
     ((is_exact l = false \/ mx mod 2 ^ k <> 0) /\ m2 = mx / 2 ^ k + 1)) /\
    round_result s m2 e1 (binary_round_aux prec emax s mx ex l).
Proof.
  intros Hm Hal e1 k. unfold binary_round_aux.
  destruct (shr_fexp_spec mx ex l Hm) as (r & -> & Hr & Hi).
  replace (Z.max 0 (grid mx ex - ex)) with k in * by (subst k e1; lia).
  replace (ex + k) with e1 by (subst k; lia).
  set (m2 := round_nearest_even (shr_m r) (loc_of_shr_record r)).
  assert (Hk : 0 <= k) by (subst k e1; lia).
  assert (Hpk : 0 < 2 ^ k) by (apply Z.pow_pos_nonneg; lia).
  assert (Hm1 : 0 <= mx / 2 ^ k) by (apply Z.div_pos; lia).
  assert (Hm2 : m2 = mx / 2 ^ k \/
                ((is_exact l = false \/ mx mod 2 ^ k <> 0) /\ m2 = mx / 2 ^ k + 1)).
  { destruct (round_nearest_even_spec r) as [E | [Hin E]]; fold m2 in E; rewrite Hr in E.
    - now left.
    - right. split; [|exact E]. rewrite Hi in Hin.
      apply orb_true_iff in Hin. destruct Hin as [Hin | Hin].
      + left. now destruct (is_exact l).
      + right. intros Z0. rewrite Z0 in Hin. discriminate Hin. }
  exists m2. split; [exact Hm2|].
  assert (He1 : -1074 <= e1) by (subst e1; unfold grid, fexp64; lia).
  (* the truncated mantissa has at most 53 bits, and exactly 53 on a normal grid *)
  assert (Hb : mx / 2 ^ k < 2 ^ 53 /\ (e1 = -1074 \/ 2 ^ 52 <= mx / 2 ^ k)).
  { destruct (Z.eq_dec mx 0) as [-> | Hne].
    - rewrite Z.div_0_l by lia. split; [lia|]. left.
      subst e1. unfold grid, fexp64 in *. cbn [Zdigits2] in *. lia.
    - pose proof (Zdigits2_log2 mx ltac:(lia)) as Hd.
      pose proof (Z.log2_spec mx ltac:(lia)) as [Hlo Hhi].
      pose proof (Z.log2_nonneg mx) as HL.
      assert (Hkd : Z.log2 mx + 1 - 53 <= k) by (subst k e1; unfold grid, fexp64; lia).
      split.
      + apply Z.div_lt_upper_bound; [lia|].
        rewrite <- Z.pow_add_r by lia.
        apply Z.lt_le_trans with (1 := Hhi). apply Z.pow_le_mono_r; lia.
      + destruct (Z.eq_dec e1 (-1074)) as [E | E]; [now left | right].
        assert (k = Z.log2 mx + 1 - 53) by (subst k e1; unfold grid, fexp64 in *; lia).
        apply Z.div_le_lower_bound; [lia|].
        rewrite <- Z.pow_add_r by lia.
        replace (k + 52) with (Z.log2 mx) by lia. exact Hlo. }
  destruct Hb as [Hb1 Hb2].
  apply round_tail_spec; [exact He1 | | ].
  - destruct Hm2 as [-> | [_ ->]]; lia.
  - destruct Hb2 as [? | ?]; [now left | right].
    destruct Hm2 as [-> | [_ ->]]; lia.
Qed.

(** The truncated mantissa on the grid of [mx * 2^ex]. *)
Lemma truncated_mantissa_bounds (mx ex : Z) :
  0 <= mx -> ex <= grid mx ex ->
  let k := grid mx ex - ex in
  mx / 2 ^ k < 2 ^ 53 /\ (grid mx ex = -1074 \/ 2 ^ 52 <= mx / 2 ^ k).
Proof.
  intros Hm Hal k.
  assert (Hk : 0 <= k) by (subst k; lia).
  assert (Hpk : 0 < 2 ^ k) by (apply Z.pow_pos_nonneg; lia).
  destruct (Z.eq_dec mx 0) as [-> | Hne].
  - rewrite Z.div_0_l by lia. split; [lia|]. left.
    unfold grid, fexp64 in *. cbn [Zdigits2] in *. lia.
  - pose proof (Zdigits2_log2 mx ltac:(lia)) as Hd.
    pose proof (Z.log2_spec mx ltac:(lia)) as [Hlo Hhi].
    pose proof (Z.log2_nonneg mx) as HL.
    assert (Hkd : Z.log2 mx + 1 - 53 <= k) by (subst k; unfold grid, fexp64; lia).
    split.
    + apply Z.div_lt_upper_bound; [lia|].
      rewrite <- Z.pow_add_r by lia.
      apply Z.lt_le_trans with (1 := Hhi). apply Z.pow_le_mono_r; lia.
    + destruct (Z.eq_dec (grid mx ex) (-1074)) as [E | E]; [now left | right].
      assert (k = Z.log2 mx + 1 - 53) by (subst k; unfold grid, fexp64 in *; lia).
      apply Z.div_le_lower_bound; [lia|].
      rewrite <- Z.pow_add_r by lia.
      replace (k + 52) with (Z.log2 mx) by lia. exact Hlo.
Qed.

Section GridBounds.

Variables (N sigma b : Z) (mc : positive) (ec : Z).
Hypothesis HN : 0 <= N.
Hypothesis Hal : sigma <= grid N sigma.
Hypothesis Hb : b <= sigma.
Hypothesis Hb' : b <= -1074.
Hypothesis Hc : bounded prec emax mc ec = true.

Let e1 := grid N sigma.
Let k := e1 - sigma.

Lemma grid_floor_le : N / 2 ^ k * 2 ^ (e1 - b) <= N * 2 ^ (sigma - b).
Proof.
  assert (Hk : 0 <= k) by (subst k e1; lia).
  replace (e1 - b) with (k + (sigma - b)) by (subst k; lia).
  rewrite Z.pow_add_r by lia.
  assert (0 < 2 ^ k) by (apply Z.pow_pos_nonneg; lia).
  assert (0 < 2 ^ (sigma - b)) by (apply Z.pow_pos_nonneg; lia).
  rewrite Z.mul_assoc. apply Z.mul_le_mono_nonneg_r; [lia|].
  rewrite Z.mul_comm. apply Z.mul_div_le. lia.
Qed.

Lemma grid_lower :
  Zpos mc * 2 ^ (ec - b) <= N * 2 ^ (sigma - b) ->
  Zpos mc * 2 ^ (ec - b) <= N / 2 ^ k * 2 ^ (e1 - b).
Proof.
  intros H.
  assert (Hk : 0 <= k) by (subst k e1; lia).
  assert (Hpk : 0 < 2 ^ k) by (apply Z.pow_pos_nonneg; lia).
  assert (Hps : 0 < 2 ^ (sigma - b)) by (apply Z.pow_pos_nonneg; lia).
  destruct (bounded_inv mc ec Hc) as (Hec & Hmc & _).
  destruct (Z.le_gt_cases e1 ec) as [Hge | Hlt].
  - (* the bound is on the grid *)
    replace (ec - b) with ((ec - e1) + (e1 - b)) in * by lia.
    rewrite Z.pow_add_r in * by lia. rewrite Z.mul_assoc in *.
    assert (Hp1 : 0 < 2 ^ (e1 - b)) by (apply Z.pow_pos_nonneg; lia).
    apply Z.mul_le_mono_nonneg_r; [lia|].
    apply Z.div_le_lower_bound; [lia|].
    replace (e1 - b) with (k + (sigma - b)) in H by (subst k; lia).
    rewrite Z.pow_add_r, Z.mul_assoc in H by lia.
    apply Z.mul_le_mono_pos_r in H; [lia | exact Hps].
  - (* the bound lies in a lower binade *)
    destruct (truncated_mantissa_bounds N sigma HN Hal) as [_ [E | Hm1]]; [fold e1 in E; lia|].
    fold e1 in Hm1. fold k in Hm1.
    assert (Hp1 : 0 < 2 ^ (e1 - b)) by (apply Z.pow_pos_nonneg; lia).
    apply Z.le_trans with (2 ^ 52 * 2 ^ (e1 - b)); [|apply Z.mul_le_mono_nonneg_r; lia].
    replace (e1 - b) with ((ec - b) + (e1 - ec - 1) + 1) by lia.
    rewrite !Z.pow_add_r by lia. change (2 ^ 1) with 2.
    assert (0 < 2 ^ (ec - b)) by (apply Z.pow_pos_nonneg; lia).
    assert (0 < 2 ^ (e1 - ec - 1)) by (apply Z.pow_pos_nonneg; lia).
    change (2 ^ 53) with (2 ^ 52 * 2) in Hmc.
    nia.
Qed.

Lemma grid_upper :
  N * 2 ^ (sigma - b) <= Zpos mc * 2 ^ (ec - b) ->
  N mod 2 ^ k <> 0 ->
  (N / 2 ^ k + 1) * 2 ^ (e1 - b) <= Zpos mc * 2 ^ (ec - b).
Proof.
  intros H Hrem.
  assert (Hk : 0 <= k) by (subst k e1; lia).
  assert (Hpk : 0 < 2 ^ k) by (apply Z.pow_pos_nonneg; lia).
  assert (Hps : 0 < 2 ^ (sigma - b)) by (apply Z.pow_pos_nonneg; lia).
  destruct (bounded_inv mc ec Hc) as (Hec & Hmc & _).
  pose proof (Z.div_mod N (2 ^ k) ltac:(lia)) as Hdm.
  pose proof (Z.mod_pos_bound N (2 ^ k) Hpk) as Hmod.
  destruct (Z.le_gt_cases e1 ec) as [Hge | Hlt].
  - replace (ec - b) with ((ec - e1) + (e1 - b)) in * by lia.
    rewrite Z.pow_add_r in * by lia. rewrite Z.mul_assoc in *.
    assert (Hp1 : 0 < 2 ^ (e1 - b)) by (apply Z.pow_pos_nonneg; lia).
    apply Z.mul_le_mono_nonneg_r; [lia|].
    replace (e1 - b) with (k + (sigma - b)) in H by (subst k; lia).
    rewrite Z.pow_add_r, Z.mul_assoc in H by lia.
    apply Z.mul_le_mono_pos_r in H; [|exact Hps].
    assert (0 < 2 ^ (ec - e1)) by (apply Z.pow_pos_nonneg; lia).
    nia.
  - exfalso.
    assert (Hk0 : k <> 0) by (intros E; rewrite E in Hrem; now rewrite Z.mod_1_r in Hrem).
    assert (HN0 : 0 < N) by (destruct (Z.eq_dec N 0) as [E|E]; [rewrite E, Z.mod_0_l in Hrem; lia | lia]).
    pose proof (Zdigits2_log2 N HN0) as Hd.
    pose proof (Z.log2_spec N HN0) as [Hlo _].
    assert (He1 : e1 = Z.log2 N + 1 + sigma - 53) by (subst e1; unfold grid, fexp64 in *; lia).
    (* N * 2^sigma >= 2^(e1 + 52) > mc * 2^ec *)
    assert (Hc1 : Zpos mc * 2 ^ (ec - b) < 2 ^ (e1 + 52 - b)).
    { replace (e1 + 52 - b) with (53 + (ec - b) + (e1 - ec - 1)) by lia.
      rewrite !Z.pow_add_r by lia.
      assert (0 < 2 ^ (ec - b)) by (apply Z.pow_pos_nonneg; lia).
      assert (0 < 2 ^ (e1 - ec - 1)) by (apply Z.pow_pos_nonneg; lia).
      nia. }
    assert (Hc2 : 2 ^ (e1 + 52 - b) <= N * 2 ^ (sigma - b)).
    { replace (e1 + 52 - b) with (Z.log2 N + (sigma - b)) by lia.
      rewrite Z.pow_add_r by (pose proof (Z.log2_nonneg N); lia).
      apply Z.mul_le_mono_nonneg_r; lia. }
    lia.
Qed.

End GridBounds.

Lemma bounded_exp_le (m : positive) (e : Z) :
  bounded prec emax m e = true -> e <= 971.
Proof.
  unfold bounded. intros H. apply andb_prop in H. destruct H as [_ H].
  apply Z.leb_le in H. exact H.
Qed.

(** A finite number is below [2^1024] in magnitude. *)
Lemma units_lt_overflow (c : spec_float) (b : Z) :
  valid_binary c = true -> b <= -1074 ->
  Z.abs (Number.units c * 2 ^ (-1074 - b)) < 2 ^ (1024 - b).
Proof.
  intros V Hb.
  assert (HP : 0 < 2 ^ (-1074 - b)) by (apply Z.pow_pos_nonneg; lia).
  destruct c as [s | s | | s m e]; cbn [Number.units];
    try (rewrite Z.mul_0_l; cbn [Z.abs]; apply Z.pow_pos_nonneg; lia).
  cbn [valid_binary] in V.
  pose proof (bounded_exp_le m e V) as He.
  destruct (bounded_inv m e V) as (Hlo & Hm & _).
  assert (HE : 0 < 2 ^ (e + 1074)) by (apply Z.pow_pos_nonneg; lia).
  rewrite Z.abs_mul, (Z.abs_eq (2 ^ _)) by lia.
  replace (Z.abs (cond_Zopp s (Zpos m * 2 ^ (e + 1074)))) with (Zpos m * 2 ^ (e + 1074))
    by (destruct s; cbn [cond_Zopp]; lia).
  assert (HS : 2 ^ (1024 - b) = 2 ^ 53 * 2 ^ (e + 1074) * 2 ^ (-1074 - b) * 2 ^ (971 - e)).
  { rewrite <- !Z.pow_add_r by lia. f_equal. lia. }
  rewrite HS.
  assert (0 < 2 ^ (971 - e)) by (apply Z.pow_pos_nonneg; lia).
  assert (Zpos m * 2 ^ (e + 1074) * 2 ^ (-1074 - b) < 2 ^ 53 * 2 ^ (e + 1074) * 2 ^ (-1074 - b)).
  { apply Z.mul_lt_mono_pos_r; [lia|]. apply Z.mul_lt_mono_pos_r; lia. }
  assert (0 < 2 ^ 53 * 2 ^ (e + 1074) * 2 ^ (-1074 - b)) by lia.
  nia.
Qed.

Lemma SFleb_units (x y : spec_float) :
  valid_binary x = true -> valid_binary y = true ->
  Number.is_finite_sf x = true -> Number.is_finite_sf y = true ->
  SFleb x y = (Number.units x <=? Number.units y).
Proof.
  intros Vx Vy Fx Fy. unfold SFleb. rewrite (SFcompare_units x y Vx Vy Fx Fy).
  unfold Z.leb. now destruct (Number.units x ?= Number.units y).
Qed.

Lemma SFltb_units (x y : spec_float) :
  valid_binary x = true -> valid_binary y = true ->
  Number.is_finite_sf x = true -> Number.is_finite_sf y = true ->
  SFltb x y = (Number.units x <? Number.units y).
Proof.
  intros Vx Vy Fx Fy. unfold SFltb. rewrite (SFcompare_units x y Vx Vy Fx Fy).
  unfold Z.ltb. now destruct (Number.units x ?= Number.units y).
Qed.

(** Comparing a rounded result with a finite number. *)
Lemma round_result_leb (s : bool) (m2 e1 b : Z) (R c : spec_float) :
  round_result s m2 e1 R -> valid_binary R = true ->
  valid_binary c = true -> Number.is_finite_sf c = true ->
  0 <= m2 -> b <= -1074 -> b <= e1 ->
  let W := cond_Zopp s (m2 * 2 ^ (e1 - b)) in
  let C := Number.units c * 2 ^ (-1074 - b) in
  (W <= C -> SFleb R c = true) /\ (C <= W -> SFleb c R = true).
Proof.
  intros HR VR Vc Fc Hm2 Hb Hbe W C.
  assert (HP : 0 < 2 ^ (-1074 - b)) by (apply Z.pow_pos_nonneg; lia).
  assert (HQ : 0 < 2 ^ (e1 - b)) by (apply Z.pow_pos_nonneg; lia).
  pose proof (units_lt_overflow c b Vc Hb) as HC. fold C in HC.
  destruct R as [s' | s' | | s' m3 e3]; cbn [round_result] in HR.
  - destruct HR as [-> ->].
    rewrite !SFleb_units by (assumption || reflexivity).
    cbn [Number.units]. subst W C. rewrite Z.mul_0_l.
    replace (cond_Zopp s 0) with 0 by (now destruct s).
    split; intros H; apply Z.leb_le; nia.
  - destruct HR as (-> & Hpos & Hbig).
    assert (HW : 2 ^ (1024 - b) <= m2 * 2 ^ (e1 - b)).
    { destruct (Z.le_gt_cases e1 1024) as [Hle | Hgt].
      - replace (1024 - b) with ((1024 - e1) + (e1 - b)) by lia.
        rewrite Z.pow_add_r by lia. apply Z.mul_le_mono_nonneg_r; lia.
      - apply Z.le_trans with (2 ^ (e1 - b)); [apply Z.pow_le_mono_r; lia | nia]. }
    destruct s; subst W; cbn [cond_Zopp];
      (split; intros H; [|]);
      try (exfalso; lia);
      destruct c as [sc | sc | | sc mc ec]; try discriminate Fc; reflexivity.
  - contradiction.
  - destruct HR as (-> & He3 & Hm3).
    cbn [valid_binary] in VR. destruct (bounded_inv m3 e3 VR) as (Hlo & _ & _).
    assert (HU : Number.units (S754_finite s m3 e3) * 2 ^ (-1074 - b) = W).
    { cbn [Number.units]. subst W. rewrite <- Hm3.
      replace (cond_Zopp s (Zpos m3 * 2 ^ (e3 + 1074)) * 2 ^ (-1074 - b))
        with (cond_Zopp s (Zpos m3 * 2 ^ (e3 + 1074) * 2 ^ (-1074 - b)))
        by (destruct s; cbn [cond_Zopp]; lia).
      f_equal. rewrite <- !Z.mul_assoc, <- !Z.pow_add_r by lia.
      do 2 f_equal. lia. }
    rewrite !SFleb_units by (assumption || reflexivity).
    rewrite <- HU. subst C.
    split; intros H; apply Z.leb_le; apply Z.mul_le_mono_pos_r in H; assumption.
Qed.

Lemma units_rebase (s : bool) (m : positive) (e b : Z) :
  -1074 <= e -> b <= -1074 ->
  Number.units (S754_finite s m e) * 2 ^ (-1074 - b) = cond_Zopp s (Zpos m * 2 ^ (e - b)).
Proof.
  intros He Hb. cbn [Number.units].
  replace (e - b) with ((e + 1074) + (-1074 - b)) by lia.
  rewrite (Z.pow_add_r 2 (e + 1074) (-1074 - b)) by lia.
  destruct s; cbn [cond_Zopp]; lia.
Qed.

(** Rounding to nearest never crosses a representable number: if the exact
    value [(-1)^s N 2^sigma] is on one side of a finite number [c], so is
    the rounded one. *)
Lemma round_aux_mono (s : bool) (N sigma b : Z) (c : spec_float) :
  0 <= N -> sigma <= grid N sigma -> b <= sigma -> b <= -1074 ->
  valid_binary (binary_round_aux prec emax s N sigma loc_Exact) = true ->
  valid_binary c = true -> Number.is_finite_sf c = true ->
  let R := binary_round_aux prec emax s N sigma loc_Exact in
  let V := cond_Zopp s (N * 2 ^ (sigma - b)) in
  let C := Number.units c * 2 ^ (-1074 - b) in
  (V <= C -> SFleb R c = true) /\ (C <= V -> SFleb c R = true).
Proof.
  intros HN Hal Hb Hb' VR Vc Fc R V C.
  destruct (round_aux_spec s N sigma loc_Exact HN Hal) as (m2 & Hm2 & HR).
  cbv zeta in Hm2, HR. fold R in HR, VR.
  set (e1 := grid N sigma) in *. set (k := e1 - sigma) in *.
  assert (Hk : 0 <= k) by (subst k; lia).
  assert (Hpk : 0 < 2 ^ k) by (apply Z.pow_pos_nonneg; lia).
  assert (Hm1 : 0 <= N / 2 ^ k) by (apply Z.div_pos; lia).
  assert (H0 : 0 <= m2) by (destruct Hm2 as [-> | [_ ->]]; lia).
  assert (HQ : 0 < 2 ^ (e1 - b)) by (apply Z.pow_pos_nonneg; lia).
  assert (HS : 0 < 2 ^ (sigma - b)) by (apply Z.pow_pos_nonneg; lia).
  pose proof (grid_floor_le N sigma b Hal Hb) as Hfl. fold e1 in Hfl. fold k in Hfl.
  set (T := m2 * 2 ^ (e1 - b)). set (F := N * 2 ^ (sigma - b)) in *.
  assert (HT0 : 0 <= T) by (subst T; nia).
  assert (HF0 : 0 <= F) by (subst F; nia).
  assert (HFT : F = 0 -> T = 0).
  { intros E. assert (N = 0) by (subst F; nia). subst N.
    rewrite Z.div_0_l, Z.mod_0_l in Hm2 by lia.
    destruct Hm2 as [-> | [[Hx | Hx] _]]; [reflexivity | discriminate Hx | now elim Hx]. }
  assert (HMT : N / 2 ^ k * 2 ^ (e1 - b) <= T) by (subst T; destruct Hm2 as [-> | [_ ->]]; nia).
  assert (Hcross : (V <= C -> cond_Zopp s T <= C) /\ (C <= V -> C <= cond_Zopp s T)).
  { subst V. fold F.
    destruct c as [sc | sc | | sc mc ec]; try discriminate Fc.
    - subst C. cbn [Number.units]. rewrite Z.mul_0_l.
      destruct s; cbn [cond_Zopp]; split; intros H; try lia;
        (assert (F = 0) by lia); rewrite (HFT ltac:(assumption)); lia.
    - cbn [valid_binary] in Vc.
      destruct (bounded_inv mc ec Vc) as (Hec & _ & _).
      subst C. rewrite units_rebase by lia.
      assert (HCm : 0 < Zpos mc * 2 ^ (ec - b)).
      { apply Z.mul_pos_pos; [lia|]. apply Z.pow_pos_nonneg; lia. }
      pose proof (grid_lower N sigma b mc ec HN Hal Hb Hb' Vc) as HL.
      pose proof (grid_upper N sigma b mc ec HN Hal Hb Hb' Vc) as HU.
      fold e1 in HL, HU. fold k in HL, HU. fold F in HL, HU.
      assert (HU' : F <= Zpos mc * 2 ^ (ec - b) -> T <= Zpos mc * 2 ^ (ec - b)).
      { intros H. subst T. destruct Hm2 as [-> | [[Hx | Hx] ->]].
        - lia.
        - discriminate Hx.
        - now apply HU. }
      destruct s, sc; cbn [cond_Zopp]; split; intros H;
        first [ lia
              | assert (H' : Zpos mc * 2 ^ (ec - b) <= F) by lia; apply HL in H'; lia
              | assert (H' : F <= Zpos mc * 2 ^ (ec - b)) by lia; apply HU' in H'; lia ]. }
  destruct (round_result_leb s m2 e1 b R c HR VR Vc Fc H0 Hb' ltac:(lia)) as [H1 H2].
  fold T in H1, H2. fold C in H1, H2.
  destruct Hcross as [Hc1 Hc2]. split; auto.
Qed.

Lemma iter_xO (p d : positive) : Zpos (Pos.iter xO p d) = Zpos p * 2 ^ Zpos d.
Proof.
  induction d as [|d IH] using Pos.peano_ind.
  - cbn [Pos.iter]. change (2 ^ 1) with 2. lia.
  - rewrite Pos.iter_succ, Pos2Z.inj_xO, IH, Pos2Z.inj_succ, Z.pow_succ_r by lia. lia.
Qed.

Lemma shl_align_spec (mx : positive) (ex ex' : Z) :
  let '(m, e) := shl_align mx ex ex' in
  e = Z.min ex ex' /\ Zpos m = Zpos mx * 2 ^ (ex - e).
Proof.
  unfold shl_align. destruct (ex' - ex) as [|d|d] eqn:E.
  - split; [lia|]. rewrite Z.sub_diag. lia.
  - split; [lia|]. rewrite Z.sub_diag. lia.
  - split; [lia|]. rewrite iter_xO. f_equal. f_equal. lia.
Qed.

Lemma Zdigits2_shift (p : positive) (d : Z) :
  0 <= d -> Zdigits2 (Zpos p * 2 ^ d) = Zdigits2 (Zpos p) + d.
Proof.
  intros Hd.
  assert (0 < 2 ^ d) by (apply Z.pow_pos_nonneg; lia).
  rewrite !Zdigits2_log2 by lia.
  rewrite Z.log2_mul_pow2 by lia. lia.
Qed.

(** The sum, difference or conversion [M * 2^sigma], rounded. *)
Lemma binary_normalize_mono (M sigma : Z) (c : spec_float) :
  -1074 <= sigma ->
  valid_binary (binary_normalize prec emax M sigma false) = true ->
  valid_binary c = true -> Number.is_finite_sf c = true ->
  let R := binary_normalize prec emax M sigma false in
  (M * 2 ^ (sigma + 1074) <= Number.units c -> SFleb R c = true) /\
  (Number.units c <= M * 2 ^ (sigma + 1074) -> SFleb c R = true).
Proof.
  intros Hs VR Vc Fc R. fold R in VR.
  assert (Hround : forall (s : bool) (p : positive),
            R = binary_round prec emax s p sigma ->
            (cond_Zopp s (Zpos p * 2 ^ (sigma + 1074)) <= Number.units c -> SFleb R c = true) /\
            (Number.units c <= cond_Zopp s (Zpos p * 2 ^ (sigma + 1074)) -> SFleb c R = true)).
  { intros s p ER. unfold binary_round in ER. rewrite fexp64_eq in ER.
    change (fexp64 (Z.pos (digits2_pos p) + sigma)) with (grid (Zpos p) sigma) in ER.
    pose proof (shl_align_spec p sigma (grid (Zpos p) sigma)) as Hsh.
    destruct (shl_align p sigma (grid (Zpos p) sigma)) as [mz ez].
    destruct Hsh as [Hez Hmz].
    assert (Hg : -1074 <= grid (Zpos p) sigma) by (unfold grid, fexp64; lia).
    assert (Hgrid : grid (Zpos mz) ez = grid (Zpos p) sigma).
    { unfold grid. rewrite Hmz, Zdigits2_shift by lia. f_equal. lia. }
    assert (Hal : ez <= grid (Zpos mz) ez) by lia.
    rewrite ER in VR.
    pose proof (round_aux_mono s (Zpos mz) ez (-1074) c ltac:(lia) Hal ltac:(lia) ltac:(lia) VR Vc Fc) as HM.
    cbv zeta in HM. rewrite <- ER in HM.
    replace (-1074 - -1074) with 0 in HM by lia. change (2 ^ 0) with 1 in HM.
    rewrite Z.mul_1_r in HM.
    replace (Zpos mz * 2 ^ (ez - -1074)) with (Zpos p * 2 ^ (sigma + 1074)) in HM.
    - exact HM.
    - rewrite Hmz, <- Z.mul_assoc, <- Z.pow_add_r by lia. do 2 f_equal. lia. }
  destruct M as [|p|p].
  - subst R. cbn [binary_normalize]. rewrite Z.mul_0_l.
    rewrite !SFleb_units by (assumption || reflexivity). cbn [Number.units].
    split; intros H; now apply Z.leb_le.
  - apply (Hround false p). reflexivity.
  - specialize (Hround true p eq_refl). cbn [cond_Zopp] in Hround.
    replace (Zneg p * 2 ^ (sigma + 1074)) with (- (Zpos p * 2 ^ (sigma + 1074))) by lia.
    exact Hround.
Qed.

Lemma binary_round_aux_not_nan (s : bool) (mx ex : Z) (l : location) :
  0 <= mx -> is_nan_sf (binary_round_aux prec emax s mx ex l) = false.
Proof.
  intros Hm. unfold binary_round_aux.
  destruct (shr_fexp_spec mx ex l Hm) as (r & -> & Hr & _).
  set (m2 := round_nearest_even (shr_m r) (loc_of_shr_record r)).
  assert (H1 : 0 <= shr_m r).
  { rewrite Hr. apply Z.div_pos; [lia|]. apply Z.pow_pos_nonneg; lia. }
  assert (H2 : 0 <= m2).
  { destruct (round_nearest_even_spec r) as [E | [_ E]]; fold m2 in E; lia. }
  destruct (shr_fexp_spec m2 (ex + Z.max 0 (grid mx ex - ex)) loc_Exact H2) as (r2 & -> & Hr2 & _).
  assert (H3 : 0 <= shr_m r2).
  { rewrite Hr2. apply Z.div_pos; [lia|]. apply Z.pow_pos_nonneg; lia. }
  destruct (shr_m r2); [reflexivity | | lia].
  now destruct (_ <=? _).
Qed.

Lemma binary_normalize_not_nan (M e : Z) (sz : bool) :
  is_nan_sf (binary_normalize prec emax M e sz) = false.
Proof.
  destruct M as [|p|p]; cbn [binary_normalize]; [reflexivity | |];
    unfold binary_round; destruct (shl_align _ _ _) as [mz ez];
    apply binary_round_aux_not_nan; lia.
Qed.

Lemma units_shl_align (s : bool) (m : positive) (e ez : Z) :
  -1074 <= ez -> ez <= e ->
  cond_Zopp s (Zpos (fst (shl_align m e ez))) * 2 ^ (ez + 1074) =
  Number.units (S754_finite s m e).
Proof.
  intros Hz Hle. pose proof (shl_align_spec m e ez) as H.
  destruct (shl_align m e ez) as [m' e']. destruct H as [He' Hm']. cbn [fst Number.units].
  rewrite Hm'. replace e' with ez by lia.
  replace (e + 1074) with ((e - ez) + (ez + 1074)) by lia.
  rewrite (Z.pow_add_r 2 (e - ez)) by lia.
  destruct s; cbn [cond_Zopp]; lia.
Qed.

Lemma SFadd_mono (x y c : spec_float) :
  valid_binary x = true -> valid_binary y = true ->
  Number.is_finite_sf x = true -> Number.is_finite_sf y = true ->
  valid_binary (SFadd prec emax x y) = true ->
  valid_binary c = true -> Number.is_finite_sf c = true ->
  (Number.units x + Number.units y <= Number.units c -> SFleb (SFadd prec emax x y) c = true) /\
  (Number.units c <= Number.units x + Number.units y -> SFleb c (SFadd prec emax x y) = true).
Proof.
  intros Vx Vy Fx Fy VR Vc Fc.
  destruct x as [sx | sx | | sx mx ex]; try discriminate Fx;
  destruct y as [sy | sy | | sy my ey]; try discriminate Fy.
  - assert (E : Number.units (SFadd prec emax (S754_zero sx) (S754_zero sy)) = 0)
      by (destruct sx, sy; reflexivity).
    assert (F : Number.is_finite_sf (SFadd prec emax (S754_zero sx) (S754_zero sy)) = true)
      by (destruct sx, sy; reflexivity).
    rewrite !SFleb_units by assumption. rewrite E. cbn [Number.units].
    split; intros H; now apply Z.leb_le.
  - cbn [SFadd] in *. rewrite !SFleb_units by assumption. cbn [Number.units].
    split; intros H; apply Z.leb_le; lia.
  - cbn [SFadd] in *. rewrite !SFleb_units by assumption. cbn [Number.units].
    split; intros H; apply Z.leb_le; lia.
  - cbn [valid_binary] in Vx, Vy.
    destruct (bounded_inv mx ex Vx) as (Hex & _). destruct (bounded_inv my ey Vy) as (Hey & _).
    cbn [SFadd] in *. cbv zeta in *.
    set (ez := Z.min ex ey) in *.
    pose proof (binary_normalize_mono _ ez c ltac:(lia) VR Vc Fc) as HM. cbv zeta in HM.
    rewrite Z.mul_add_distr_r, !units_shl_align in HM by lia.
    exact HM.
Qed.

Lemma SFsub_mono (x y c : spec_float) :
  valid_binary x = true -> valid_binary y = true ->
  Number.is_finite_sf x = true -> Number.is_finite_sf y = true ->
  valid_binary (SFsub prec emax x y) = true ->
  valid_binary c = true -> Number.is_finite_sf c = true ->
  (Number.units x - Number.units y <= Number.units c -> SFleb (SFsub prec emax x y) c = true) /\
  (Number.units c <= Number.units x - Number.units y -> SFleb c (SFsub prec emax x y) = true).
Proof.
  intros Vx Vy Fx Fy VR Vc Fc.
  destruct x as [sx | sx | | sx mx ex]; try discriminate Fx;
  destruct y as [sy | sy | | sy my ey]; try discriminate Fy.
  - assert (E : Number.units (SFsub prec emax (S754_zero sx) (S754_zero sy)) = 0)
      by (destruct sx, sy; reflexivity).
    assert (F : Number.is_finite_sf (SFsub prec emax (S754_zero sx) (S754_zero sy)) = true)
      by (destruct sx, sy; reflexivity).
    rewrite !SFleb_units by assumption. rewrite E. cbn [Number.units].
    split; intros H; now apply Z.leb_le.
  - cbn [SFsub] in *. rewrite !SFleb_units by assumption. cbn [Number.units].
    split; intros H; apply Z.leb_le; destruct sy; cbn [negb cond_Zopp] in *; lia.
  - cbn [SFsub] in *. rewrite !SFleb_units by assumption. cbn [Number.units].
    split; intros H; apply Z.leb_le; lia.
  - cbn [valid_binary] in Vx, Vy.
    destruct (bounded_inv mx ex Vx) as (Hex & _). destruct (bounded_inv my ey Vy) as (Hey & _).
    cbn [SFsub] in *. cbv zeta in *.
    set (ez := Z.min ex ey) in *.
    pose proof (binary_normalize_mono _ ez c ltac:(lia) VR Vc Fc) as HM. cbv zeta in HM.
    rewrite Z.mul_sub_distr_r, !units_shl_align in HM by lia.
    exact HM.
Qed.

(** The exact product of two canonical mantissas is never finer than its
    own grid. *)
Lemma product_aligned (mx my : positive) (ex ey : Z) :
  bounded prec emax mx ex = true -> bounded prec emax my ey = true ->
  ex + ey <= grid (Zpos (mx * my)) (ex + ey).
Proof.
  intros Vx Vy.
  destruct (bounded_inv mx ex Vx) as (Hex & _ & Hnx).
  destruct (bounded_inv my ey Vy) as (Hey & _ & Hny).
  unfold grid, fexp64. rewrite Zdigits2_log2, Pos2Z.inj_mul by lia.
  pose proof (Z.log2_mul_below (Zpos mx) (Zpos my) ltac:(lia) ltac:(lia)) as Hm.
  pose proof (Z.log2_nonneg (Zpos mx)). pose proof (Z.log2_nonneg (Zpos my)).
  destruct Hnx as [-> | Hnx].
  - destruct Hny as [-> | Hny]; [lia|].
    apply Z.log2_le_pow2 in Hny; lia.
  - apply Z.log2_le_pow2 in Hnx; lia.
Qed.

Lemma SFmul_mono (x y c : spec_float) :
  valid_binary x = true -> valid_binary y = true ->
  Number.is_finite_sf x = true -> Number.is_finite_sf y = true ->
  valid_binary (SFmul prec emax x y) = true ->
  valid_binary c = true -> Number.is_finite_sf c = true ->
  (Number.units x * Number.units y <= Number.units c * 2 ^ 1074 ->
   SFleb (SFmul prec emax x y) c = true) /\
  (Number.units c * 2 ^ 1074 <= Number.units x * Number.units y ->
   SFleb c (SFmul prec emax x y) = true).
Proof.
  intros Vx Vy Fx Fy VR Vc Fc.
  assert (HP : 0 < 2 ^ 1074) by (apply Z.pow_pos_nonneg; lia).
  destruct x as [sx | sx | | sx mx ex]; try discriminate Fx;
  destruct y as [sy | sy | | sy my ey]; try discriminate Fy;
    try (cbn [SFmul] in *; rewrite !SFleb_units by assumption; cbn [Number.units];
         rewrite ?Z.mul_0_l, ?Z.mul_0_r;
         split; intros H; apply Z.leb_le; lia).
  cbn [valid_binary] in Vx, Vy.
  destruct (bounded_inv mx ex Vx) as (Hex & _). destruct (bounded_inv my ey Vy) as (Hey & _).
  cbn [SFmul] in *.
  pose proof (round_aux_mono (xorb sx sy) (Zpos (mx * my)) (ex + ey) (-2148) c
                ltac:(lia) (product_aligned mx my ex ey Vx Vy) ltac:(lia) ltac:(lia)
                VR Vc Fc) as HM.
  cbv zeta in HM.
  replace (-1074 - -2148) with 1074 in HM by lia.
  replace (cond_Zopp (xorb sx sy) (Zpos (mx * my) * 2 ^ (ex + ey - -2148)))
    with (Number.units (S754_finite sx mx ex) * Number.units (S754_finite sy my ey)) in HM.
  - exact HM.
  - cbn [Number.units].
    replace (ex + ey - -2148) with ((ex + 1074) + (ey + 1074)) by lia.
    rewrite (Z.pow_add_r 2 (ex + 1074) (ey + 1074)), Pos2Z.inj_mul by lia.
    destruct sx, sy; cbn [xorb cond_Zopp]; ring.
Qed.

Lemma binary_round_aux_sign (s : bool) (mx ex : Z) (l : location) :
  0 <= mx -> has_sign s (binary_round_aux prec emax s mx ex l).
Proof.
  intros Hm. unfold binary_round_aux.
  destruct (shr_fexp_spec mx ex l Hm) as (r & -> & Hr & _).
  set (m2 := round_nearest_even (shr_m r) (loc_of_shr_record r)).
  assert (H1 : 0 <= shr_m r).
  { rewrite Hr. apply Z.div_pos; [lia|]. apply Z.pow_pos_nonneg; lia. }
  assert (H2 : 0 <= m2).
  { destruct (round_nearest_even_spec r) as [E | [_ E]]; fold m2 in E; lia. }
  destruct (shr_fexp_spec m2 (ex + Z.max 0 (grid mx ex - ex)) loc_Exact H2) as (r2 & -> & Hr2 & _).
  assert (H3 : 0 <= shr_m r2).
  { rewrite Hr2. apply Z.div_pos; [lia|]. apply Z.pow_pos_nonneg; lia. }
  destruct (shr_m r2); [reflexivity | | lia].
  now destruct (_ <=? _).
Qed.

Lemma SFdiv_core_nonneg (m1 : positive) (e1 : Z) (m2 : positive) (e2 : Z) :
  0 <= fst (fst (SFdiv_core_binary prec emax (Zpos m1) e1 (Zpos m2) e2)).
Proof.
  unfold SFdiv_core_binary.
  set (m' := match _ - _ - _ with Zpos _ => _ | Z0 => _ | Zneg _ => _ end).
  assert (Hm' : 0 <= m').
  { subst m'. destruct (_ - _ - _); try lia. apply Z.shiftl_nonneg. lia. }
  pose proof (Z_div_mod m' (Zpos m2) ltac:(lia)) as H.
  destruct (Z.div_eucl m' (Zpos m2)) as [q r]. cbn [fst].
  destruct H as [E Hr]. nia.
Qed.

Lemma SFdiv_sign (sx : bool) (mx : positive) (ex : Z) (sy : bool) (my : positive) (ey : Z) :
  has_sign (xorb sx sy) (SFdiv prec emax (S754_finite sx mx ex) (S754_finite sy my ey)).
Proof.
  cbn [SFdiv].
  pose proof (SFdiv_core_nonneg mx ex my ey) as H.
  destruct (SFdiv_core_binary prec emax (Zpos mx) ex (Zpos my) ey) as [[q e] l].
  cbn [fst] in H. now apply binary_round_aux_sign.
Qed.

(** Halving a normal number that is not among the smallest ones rounds the
    exact half. *)
Lemma SFdiv_two_normal (s : bool) (mx : positive) (ex : Z) :
  bounded prec emax mx ex = true -> 2 ^ 52 <= Zpos mx -> -1072 <= ex ->
  SFdiv prec emax (S754_finite s mx ex) two_sf =
  binary_round_aux prec emax s (Zpos mx * 2) (ex - 2) loc_Exact.
Proof.
  intros V Hn He. destruct (bounded_inv mx ex V) as (_ & Hm & _).
  unfold two_sf. cbn [SFdiv]. unfold SFdiv_core_binary.
  assert (Hd : Zdigits2 (Zpos mx) = 53).
  { rewrite Zdigits2_log2 by lia.
    rewrite (Z.log2_unique (Zpos mx) 52); [reflexivity | lia |].
    split; [exact Hn | exact Hm]. }
  rewrite Hd. change (Zdigits2 4503599627370496) with 53.
  rewrite fexp64_eq. unfold fexp64.
  replace (Z.min (Z.max (53 + ex - (53 + -51) - 53) (-1074)) (ex - -51)) with (ex - 2) by lia.
  replace (ex - -51 - (ex - 2)) with 53 by lia.
  rewrite Z.shiftl_mul_pow2 by lia.
  assert (E : Z.div_eucl (Zpos mx * 2 ^ 53) 4503599627370496 = (Zpos mx * 2, 0)).
  { pose proof (Z_div_mod (Zpos mx * 2 ^ 53) 4503599627370496 ltac:(lia)) as H.
    destruct (Z.div_eucl _ _) as [q r]. destruct H as [E Hr].
    change (2 ^ 53) with (2 * 4503599627370496) in E.
    assert (q = Zpos mx * 2) by nia. f_equal; lia. }
  rewrite E. cbn [xorb]. rewrite xorb_false_r. reflexivity.
Qed.

Section NumberArithmetic.

Lemma is_nan_spec (x : float) : is_nan x = is_nan_sf (Prim2SF x).
Proof.
  unfold is_nan. rewrite FloatAxioms.eqb_spec. unfold SFeqb.
  pose proof (Prim2SF_valid x) as V.
  destruct (Number.is_finite_sf (Prim2SF x)) eqn:F.
  - rewrite (SFcompare_units _ _ V V F F), Z.compare_refl.
    now destruct (Prim2SF x).
  - destruct (Prim2SF x) as [s | [|] | | s m e]; try discriminate F; reflexivity.
Qed.

Lemma finite_not_nan (x : float) : finite x = true -> is_nan x = false.
Proof.
  unfold finite. rewrite is_nan_spec. now destruct (Prim2SF x).
Qed.

Lemma le_units_of (x y : float) :
  finite x = true -> finite y = true ->
  Number.le x y = (units_of x <=? units_of y).
Proof.
  intros Fx Fy. unfold Number.le. rewrite FloatAxioms.leb_spec.
  apply SFleb_units; auto using Prim2SF_valid.
Qed.

Lemma lt_units_of (x y : float) :
  finite x = true -> finite y = true ->
  Number.lt x y = (units_of x <? units_of y).
Proof.
  intros Fx Fy. unfold Number.lt. rewrite FloatAxioms.ltb_spec.
  apply SFltb_units; auto using Prim2SF_valid.
Qed.

(** A Number between two finite Numbers is finite. *)
Lemma between_finite (c1 r c2 : float) :
  finite c1 = true -> finite c2 = true ->
  Number.le c1 r = true -> Number.le r c2 = true ->
  finite r = true /\ units_of c1 <= units_of r <= units_of c2.
Proof.
  intros F1 F2 H1 H2.
  assert (Fr : finite r = true).
  { unfold Number.le in *. rewrite FloatAxioms.leb_spec in H1, H2. unfold finite in *.
    destruct (Prim2SF r) as [s | [|] | | s m e]; try reflexivity.
    - destruct (Prim2SF c1); discriminate.
    - destruct (Prim2SF c2); discriminate.
    - destruct (Prim2SF c1); discriminate. }
  split; [exact Fr|].
  rewrite le_units_of in H1, H2 by assumption.
  apply Z.leb_le in H1, H2. lia.
Qed.

Lemma add_bounds (x y c : float) :
  finite x = true -> finite y = true -> finite c = true ->
  (units_of x + units_of y <= units_of c -> Number.le (x + y) c = true) /\
  (units_of c <= units_of x + units_of y -> Number.le c (x + y) = true).
Proof.
  intros Fx Fy Fc. unfold Number.le. rewrite !FloatAxioms.leb_spec, add_spec.
  apply SFadd_mono; auto using Prim2SF_valid.
  rewrite <- add_spec. apply Prim2SF_valid.
Qed.

Lemma sub_bounds (x y c : float) :
  finite x = true -> finite y = true -> finite c = true ->
  (units_of x - units_of y <= units_of c -> Number.le (x - y) c = true) /\
  (units_of c <= units_of x - units_of y -> Number.le c (x - y) = true).
Proof.
  intros Fx Fy Fc. unfold Number.le. rewrite !FloatAxioms.leb_spec, sub_spec.
  apply SFsub_mono; auto using Prim2SF_valid.
  rewrite <- sub_spec. apply Prim2SF_valid.
Qed.

Lemma mul_bounds (x y c : float) :
  finite x = true -> finite y = true -> finite c = true ->
  (units_of x * units_of y <= units_of c * 2 ^ 1074 -> Number.le (x * y) c = true) /\
  (units_of c * 2 ^ 1074 <= units_of x * units_of y -> Number.le c (x * y) = true).
Proof.
  intros Fx Fy Fc. unfold Number.le. rewrite !FloatAxioms.leb_spec, mul_spec.
  apply SFmul_mono; auto using Prim2SF_valid.
  rewrite <- mul_spec. apply Prim2SF_valid.
Qed.

End NumberArithmetic.

Section Clamp.

Lemma has_sign_not_nan (s : bool) (R : spec_float) : has_sign s R -> is_nan_sf R = false.
Proof. now destruct R. Qed.

Lemma SFadd_finite_not_nan (x y : spec_float) :
  Number.is_finite_sf x = true -> Number.is_finite_sf y = true ->
  is_nan_sf (SFadd prec emax x y) = false.
Proof.
  intros Fx Fy.
  destruct x as [sx | sx | | sx mx ex]; try discriminate Fx;
  destruct y as [sy | sy | | sy my ey]; try discriminate Fy;
    cbn [SFadd]; try reflexivity.
  - now destruct sx, sy.
  - apply binary_normalize_not_nan.
Qed.

Lemma SFdiv_two_not_nan (x : spec_float) :
  is_nan_sf x = false -> is_nan_sf (SFdiv prec emax x two_sf) = false.
Proof.
  intros Hx. destruct x as [sx | sx | | sx mx ex]; try discriminate Hx; try reflexivity.
  apply (has_sign_not_nan (xorb sx false)). apply SFdiv_sign.
Qed.

(** [(score + 1) / 2] is NaN only for a NaN score. *)
Lemma half_shifted_nan (score : float) :
  is_nan ((score + 1) / 2)%float = is_nan score.
Proof.
  rewrite !is_nan_spec, div_spec, add_spec.
  change (Prim2SF 2) with two_sf. change (Prim2SF 1) with one_sf.
  unfold SF64div, SF64add.
  destruct (Prim2SF score) as [s | s | | s m e] eqn:E; try reflexivity.
  all: cbn [is_nan_sf]; apply SFdiv_two_not_nan; now apply SFadd_finite_not_nan.
Qed.

Lemma Math_min_one (y : float) :
  Math_min (1 :: y :: nil)%float =
  if is_nan y then PrimFloat.nan else if (y <? 1)%float then y else 1%float.
Proof.
  unfold Math_min. cbn [min_loop].
  change (is_nan 1) with false. cbv iota.
  change (is_neg_zero 1) with false. cbn [andb].
  change (1 <? PrimFloat.infinity)%float with true. cbv iota zeta.
  destruct (is_nan y); [reflexivity|].
  change (is_pos_zero 1) with false. now rewrite andb_false_r.
Qed.

Lemma Math_max_zero (v : float) :
  Math_max (0 :: v :: nil)%float =
  if is_nan v then PrimFloat.nan else if (0 <? v)%float then v else 0%float.
Proof.
  unfold Math_max. cbn [max_loop].
  change (is_nan 0) with false. cbv iota.
  change (is_neg_zero PrimFloat.neg_infinity) with false. rewrite andb_false_r.
  change (PrimFloat.neg_infinity <? 0)%float with true. cbv iota zeta.
  destruct (is_nan v); [reflexivity|].
  change (is_neg_zero 0) with false. now rewrite andb_false_r.
Qed.

(** The clamp of [getColorByScore]: NaN stays NaN; anything else lands on
    +0 or in (0, 1]. *)
Lemma clamp_cases (y : float) :
  let t := Math_max (0 :: Math_min (1 :: y :: nil) :: nil)%float in
  (is_nan y = true /\ t = PrimFloat.nan) \/
  (is_nan y = false /\
   (t = 0%float \/ (finite t = true /\ 0 < units_of t <= 2 ^ 1074))).
Proof.
  intros t. subst t. rewrite Math_min_one, Math_max_zero.
  destruct (is_nan y) eqn:Ny; [left; split; reflexivity | right; split; [reflexivity|]].
  set (v := if (y <? 1)%float then y else 1%float).
  assert (Nv : is_nan v = false) by (subst v; now destruct (y <? 1)%float).
  rewrite Nv.
  destruct (0 <? v)%float eqn:Pv; [right | now left].
  assert (Hle : Number.le v 1 = true).
  { subst v. destruct (y <? 1)%float eqn:L; [|reflexivity].
    apply le_value. apply olt_ole. now apply lt_value. }
  assert (H0 : Number.le 0 v = true).
  { apply le_value. apply olt_ole. now apply lt_value. }
  destruct (between_finite 0 v 1 eq_refl eq_refl H0 Hle) as [Fv [_ Hu]].
  split; [exact Fv|]. split; [|exact Hu].
  change (Number.lt 0 v = true) in Pv. rewrite lt_units_of in Pv by (assumption || reflexivity).
  apply Z.ltb_lt in Pv. exact Pv.
Qed.

End Clamp.

Section Integers.

(** An integer of at most 53 bits, scaled by a power of two in range, is
    converted without rounding. *)
Lemma binary_normalize_exact (p : positive) (sigma : Z) :
  -1074 <= sigma <= 971 -> Zpos p < 2 ^ 53 ->
  let R := binary_normalize prec emax (Zpos p) sigma false in
  Number.is_finite_sf R = true /\ Number.units R = Zpos p * 2 ^ (sigma + 1074).
Proof.
  intros Hs Hp R. subst R. cbn [binary_normalize]. unfold binary_round.
  rewrite fexp64_eq.
  change (fexp64 (Z.pos (digits2_pos p) + sigma)) with (grid (Zpos p) sigma).
  pose proof (shl_align_spec p sigma (grid (Zpos p) sigma)) as Hsh.
  destruct (shl_align p sigma (grid (Zpos p) sigma)) as [mz ez].
  destruct Hsh as [Hez Hmz].
  assert (Hd : Zdigits2 (Zpos p) <= 53) by (apply Zdigits2_le; lia).
  assert (Hg : grid (Zpos p) sigma <= sigma) by (unfold grid, fexp64; lia).
  assert (Hg' : -1074 <= grid (Zpos p) sigma) by (unfold grid, fexp64; lia).
  assert (Hgrid : grid (Zpos mz) ez = ez).
  { unfold grid. rewrite Hmz, Zdigits2_shift by lia.
    replace (Zdigits2 (Z.pos p) + (sigma - ez) + ez) with (Zdigits2 (Zpos p) + sigma) by lia.
    fold (grid (Zpos p) sigma). lia. }
  destruct (round_aux_spec false (Zpos mz) ez loc_Exact ltac:(lia) ltac:(lia)) as (m2 & Hm2 & HR).
  cbv zeta in Hm2, HR. rewrite Hgrid in Hm2, HR. rewrite Z.sub_diag in Hm2.
  change (2 ^ 0) with 1 in Hm2. rewrite Z.div_1_r, Z.mod_1_r in Hm2.
  assert (E : m2 = Zpos mz).
  { destruct Hm2 as [E | [[Hx | Hx] _]]; [exact E | discriminate Hx | now elim Hx]. }
  subst m2.
  destruct (binary_round_aux prec emax false (Zpos mz) ez loc_Exact) as [s' | s' | | s' m3 e3];
    cbn [round_result] in HR.
  - destruct HR as [_ HR]. lia.
  - exfalso. destruct HR as (_ & _ & HR).
    assert (2 ^ (1024 - ez) <= 2 ^ (53 + (sigma - ez)) - 1).
    { rewrite Z.pow_add_r by lia. rewrite Hmz in HR.
      assert (0 < 2 ^ (sigma - ez)) by (apply Z.pow_pos_nonneg; lia). nia. }
    assert (2 ^ (53 + (sigma - ez)) <= 2 ^ (1024 - ez)) by (apply Z.pow_le_mono_r; lia).
    lia.
  - contradiction.
  - destruct HR as (-> & He3 & Hm3). split; [reflexivity|]. cbn [Number.units cond_Zopp].
    replace (e3 + 1074) with ((e3 - ez) + (ez + 1074)) by lia.
    rewrite (Z.pow_add_r 2 (e3 - ez)), Z.mul_assoc, Hm3, Hmz by lia.
    rewrite <- Z.mul_assoc, <- Z.pow_add_r by lia. do 2 f_equal. lia.
Qed.

Lemma of_integer_spec (n : Z) :
  0 < n < 2 ^ 53 ->
  finite (of_integer n) = true /\ units_of (of_integer n) = n * 2 ^ 1074.
Proof.
  intros Hn. unfold of_integer, finite, units_of.
  destruct (Z.ltb_spec n 0) as [H | _]; [lia|].
  rewrite of_uint63_spec, Uint63.of_Z_spec.
  rewrite Z.mod_small by (change Uint63.wB with (2 ^ 63); split; [lia|];
                          apply Z.lt_trans with (2 ^ 53); [lia | reflexivity]).
  destruct n as [|p|p]; try lia.
  apply (binary_normalize_exact p 0); lia.
Qed.

End Integers.

Section Bytes.

Lemma toString16_integer (x : float) (n : Z) :
  finite x = true -> units_of x = n * 2 ^ 1074 -> 0 <= n < 2 ^ 53 ->
  Number_toString16 x = Some (to_hex n).
Proof.
  unfold finite, units_of, Number_toString16. intros F U Hn.
  assert (HP : 0 < 2 ^ 1074) by (apply Z.pow_pos_nonneg; lia).
  assert (E : integral_value (Prim2SF x) = Some n).
  { unfold integral_value. rewrite U, Z.mod_mul, Z.div_mul by lia.
    now destruct (Prim2SF x). }
  destruct (Prim2SF x) as [s | s | | s m e]; try discriminate F; rewrite E;
    rewrite Z.abs_eq by lia;
    destruct (Z.ltb_spec n (2 ^ 53)); try lia;
    destruct (Z.ltb_spec n 0); try lia; reflexivity.
Qed.

(** Rounding a Number of [[0, 255]] and printing it in base 16 gives the
    digits of an integer of [[0, 255]]. *)
Lemma round_byte (p : float) :
  finite p = true -> 0 <= units_of p <= 255 * 2 ^ 1074 ->
  exists n, 0 <= n <= 255 /\ Number_toString16 (Math_round p) = Some (to_hex n).
Proof.
  intros F [Hlo Hhi].
  assert (HP : 0 < 2 ^ 1074) by (apply Z.pow_pos_nonneg; lia).
  unfold Math_round.
  pose proof (Prim2SF_valid p) as V.
  pose proof F as F'. pose proof Hlo as Hlo'. pose proof Hhi as Hhi'.
  unfold finite in F'. unfold units_of in Hlo', Hhi'.
  destruct (Prim2SF p) as [s | s | | s m e] eqn:E; try discriminate F'.
  - exists 0. split; [lia|]. apply toString16_integer; [exact F | | lia].
    unfold units_of. rewrite E. reflexivity.
  - cbn [valid_binary] in V. destruct (bounded_inv m e V) as (He & _ & _).
    cbn [Number.units] in Hlo', Hhi'.
    assert (HE : 0 < 2 ^ (e + 1074)) by (apply Z.pow_pos_nonneg; lia).
    assert (s = false) by (destruct s; [cbn [cond_Zopp] in Hlo'; nia | reflexivity]).
    subst s. cbn [cond_Zopp] in *.
    destruct (Z.leb_spec 0 e) as [Hpos | Hneg].
    + (* already an integer *)
      exists (Zpos m * 2 ^ e).
      assert (HU : Zpos m * 2 ^ (e + 1074) = Zpos m * 2 ^ e * 2 ^ 1074)
        by (rewrite Z.pow_add_r by lia; ring).
      assert (0 < 2 ^ e) by (apply Z.pow_pos_nonneg; lia).
      split; [nia|]. apply toString16_integer; [exact F | | nia].
      unfold units_of. rewrite E. exact HU.
    + set (k := - e). replace (1 - e) with (k + 1) by (subst k; lia).
      assert (Hk : 0 < k <= 1074) by (subst k; lia).
      assert (Hpk : 0 < 2 ^ k) by (apply Z.pow_pos_nonneg; lia).
      assert (Hm : Zpos m <= 255 * 2 ^ k).
      { assert (HS : 2 ^ 1074 = 2 ^ k * 2 ^ (e + 1074))
          by (rewrite <- Z.pow_add_r by lia; f_equal; subst k; lia).
        rewrite HS in Hhi'. nia. }
      set (n := (2 * Zpos m + 2 ^ k) / 2 ^ (k + 1)).
      assert (Hn : 0 <= n <= 255).
      { subst n. rewrite Z.pow_add_r by lia. change (2 ^ 1) with 2. split.
        - apply Z.div_pos; lia.
        - apply Z.lt_succ_r. apply Z.div_lt_upper_bound; lia. }
      exists n. split; [exact Hn|].
      destruct (Z.eqb_spec n 0) as [E0 | E0].
      * rewrite E0. reflexivity.
      * destruct (of_integer_spec n) as [Fn Un]; [lia|].
        apply toString16_integer; [exact Fn | exact Un | lia].
Qed.

Lemma pad_hex_byte (n : Z) :
  0 <= n <= 255 -> padStart (to_hex n) 2 "0" = hex_byte n.
Proof.
  intros Hn.
  assert (H : forallb (fun i => String.eqb (padStart (to_hex (Z.of_nat i)) 2 "0")
                                          (hex_byte (Z.of_nat i)))
                      (seq 0 256) = true) by (vm_compute; reflexivity).
  rewrite forallb_forall in H.
  specialize (H (Z.to_nat n)). rewrite Z2Nat.id in H by lia.
  apply String.eqb_eq, H, in_seq. lia.
Qed.

End Bytes.

Section Colour.

Lemma units_of_one : units_of 1 = 2 ^ 1074.
Proof. vm_compute. reflexivity. Qed.

Lemma units_of_255 : units_of 255 = 255 * 2 ^ 1074.
Proof. vm_compute. reflexivity. Qed.

Lemma units_of_zero : units_of 0 = 0.
Proof. reflexivity. Qed.

(** A factor in [[0, 1]] times 255 is a finite Number in [[0, 255]]. *)
Lemma scale_to_byte (a : float) :
  finite a = true -> 0 <= units_of a <= 2 ^ 1074 ->
  finite (a * 255)%float = true /\ 0 <= units_of (a * 255)%float <= 255 * 2 ^ 1074.
Proof.
  intros Fa [Hlo Hhi].
  assert (HP : 0 < 2 ^ 1074) by (apply Z.pow_pos_nonneg; lia).
  destruct (mul_bounds a 255 255 Fa eq_refl eq_refl) as [Hup _].
  destruct (mul_bounds a 255 0 Fa eq_refl eq_refl) as [_ Hdn].
  rewrite units_of_255 in Hup, Hdn. rewrite units_of_zero in Hdn.
  assert (L1 : Number.le 0 (a * 255) = true).
  { apply Hdn. generalize dependent (2 ^ 1074). intros. nia. }
  assert (L2 : Number.le (a * 255) 255 = true).
  { apply Hup. generalize dependent (2 ^ 1074). intros. nia. }
  destruct (between_finite 0 (a * 255) 255 eq_refl eq_refl L1 L2) as [F [H1 H2]].
  rewrite units_of_zero in H1. rewrite units_of_255 in H2. now split.
Qed.

(** The complement of a factor in [[0, 1]] is in [[0, 1]]. *)
Lemma complement_in_unit (t : float) :
  finite t = true -> 0 <= units_of t <= 2 ^ 1074 ->
  finite (1 - t)%float = true /\ 0 <= units_of (1 - t)%float <= 2 ^ 1074.
Proof.
  intros Ft [Hlo Hhi].
  destruct (sub_bounds 1 t 1 eq_refl Ft eq_refl) as [Hup _].
  destruct (sub_bounds 1 t 0 eq_refl Ft eq_refl) as [_ Hdn].
  rewrite units_of_one in Hup, Hdn. rewrite units_of_zero in Hdn.
  destruct (between_finite 0 (1 - t) 1 eq_refl eq_refl) as [F [H1 H2]].
  - apply Hdn. lia.
  - apply Hup. lia.
  - rewrite units_of_zero in H1. rewrite units_of_one in H2. now split.
Qed.

Lemma colour_of_factor (t : float) :
  finite t = true -> 0 <= units_of t <= 2 ^ 1074 ->
  exists r g, 0 <= r <= 255 /\ 0 <= g <= 255 /\
    match Number_toString16 (Math_round ((1 - t) * 255)%float),
          Number_toString16 (Math_round (t * 255)%float) with
    | Some rs, Some gs =>
        Some ("#" ++ padStart rs 2 "0" ++ padStart gs 2 "0" ++ "00")%string
    | _, _ => None
    end = Some ("#" ++ hex_byte r ++ hex_byte g ++ "00")%string.
Proof.
  intros Ft Ht.
  destruct (complement_in_unit t Ft Ht) as [Fa Ha].
  destruct (scale_to_byte _ Fa Ha) as [Fp Hp].
  destruct (scale_to_byte t Ft Ht) as [Fq Hq].
  destruct (round_byte _ Fp Hp) as (r & Hr & ->).
  destruct (round_byte _ Fq Hq) as (g & Hg & ->).
  exists r, g. split; [exact Hr|]. split; [exact Hg|].
  now rewrite !pad_hex_byte.
Qed.

End Colour.

Section ColourOfScore.

Import XRat.

Lemma le_not_lt (a b : float) : Number.le a b = true -> Number.lt b a = false.
Proof.
  intros H. destruct (Number.lt b a) eqn:E; [|reflexivity].
  apply le_value in H. apply lt_value, olt_not_ole in E. contradiction.
Qed.

Lemma colour_of_number (score : float) :
  is_nan score = false ->
  exists r g : Z,
    0 <= r <= 255 /\ 0 <= g <= 255 /\
    getColorByScore score = Some ("#" ++ hex_byte r ++ hex_byte g ++ "00")%string.
Proof.
  intros Hs. unfold getColorByScore.
  set (t := Math_max _).
  destruct (clamp_cases ((score + 1) / 2)%float) as [[Hn Ht] | [Hn Ht]];
    fold t in Ht; rewrite half_shifted_nan in Hn; [congruence|].
  cbv zeta. destruct Ht as [Ht | [Ft Hu]].
  - exists 255, 0. rewrite Ht. repeat split; try lia.
  - destruct (colour_of_factor t Ft ltac:(lia)) as (r & g & Hr & Hg & E).
    exists r, g. repeat split; try lia. exact E.
Qed.

Lemma colour_of_nan (score : float) :
  is_nan score = true -> getColorByScore score = Some "#NaNNaN00"%string.
Proof.
  intros Hs. unfold getColorByScore.
  set (t := Math_max _).
  destruct (clamp_cases ((score + 1) / 2)%float) as [[Hn Ht] | [Hn Ht]];
    fold t in Ht; rewrite half_shifted_nan in Hn; [|congruence].
  cbv zeta. rewrite Ht. reflexivity.
Qed.

(** X1: the colour of any score is either the six hexadecimal digits of a
    red byte, a green byte and a zero blue byte after ["#"], or, for a NaN
    score only, the text ["#NaNNaN00"]. *)
Theorem getColorByScore_shape (score : float) :
  exists r g : Z,
    0 <= r <= 255 /\ 0 <= g <= 255 /\
    getColorByScore score =
    Some (if is_nan score then "#NaNNaN00"
          else "#" ++ hex_byte r ++ hex_byte g ++ "00")%string.
Proof.
  destruct (is_nan score) eqn:Hs.
  - exists 0, 0. rewrite (colour_of_nan score Hs). repeat split; lia.
  - destruct (colour_of_number score Hs) as (r & g & Hr & Hg & E).
    exists r, g. repeat split; try lia. exact E.
Qed.

Lemma shift_le_zero (score : float) :
  Number.le score (-1) = true -> Number.le (score + 1) 0 = true.
Proof.
  intros H. destruct (finite score) eqn:F.
  - apply (add_bounds score 1 0 F eq_refl eq_refl).
    rewrite le_units_of in H by (assumption || reflexivity). apply Z.leb_le in H.
    rewrite units_of_one, units_of_zero.
    replace (units_of (-1)) with (- 2 ^ 1074) in H by (vm_compute; reflexivity). lia.
  - unfold Number.le in *. rewrite FloatAxioms.leb_spec in *. rewrite add_spec.
    unfold finite in F. change (Prim2SF (-1)) with (S754_finite true 4503599627370496 (-52)) in H.
    destruct (Prim2SF score) as [s | [|] | | s m e]; try discriminate; reflexivity.
Qed.

Lemma half_of_nonpositive (z : float) :
  Number.le z 0 = true ->
  is_nan (z / 2)%float = false /\ (z / 2 <? 1)%float = true /\ (0 <? z / 2)%float = false.
Proof.
  unfold Number.le. rewrite is_nan_spec, !FloatAxioms.ltb_spec, FloatAxioms.leb_spec, div_spec.
  change (Prim2SF 2) with two_sf. change (Prim2SF 1) with one_sf.
  change (Prim2SF 0) with (S754_zero false). unfold SF64div.
  destruct (Prim2SF z) as [s | [|] | | s m e]; try discriminate.
  - intros _. now destruct s.
  - intros _. repeat split.
  - intros H. assert (s = true) by (destruct s; [reflexivity | discriminate H]). subst s.
    pose proof (SFdiv_sign true m e false 4503599627370496 (-51)) as Hs.
    fold two_sf in Hs. cbn [xorb] in Hs.
    destruct (SFdiv prec emax (S754_finite true m e) two_sf) as [s' | s' | | s' m' e'];
      cbn [has_sign] in Hs; try contradiction; subst s'; repeat split.
Qed.

(** X2: every score at or below -1, -Infinity included, is drawn pure red. *)
Theorem getColorByScore_low (score : float) :
  Number.le score (-1) = true -> getColorByScore score = Some "#ff0000"%string.
Proof.
  intros H. apply shift_le_zero, half_of_nonpositive in H. destruct H as (Hn & Hlt & Hpos).
  unfold getColorByScore. rewrite Math_min_one, Hn, Hlt, Math_max_zero, Hn, Hpos.
  reflexivity.
Qed.

Lemma getColorByScore_low_witness :
  getColorByScore (-3) = Some "#ff0000"%string.
Proof. exact (getColorByScore_low (-3) eq_refl). Defined.

Lemma shift_ge_two (score : float) :
  Number.le 1 score = true -> Number.le 2 (score + 1) = true.
Proof.
  intros H. destruct (finite score) eqn:F.
  - apply (add_bounds score 1 2 F eq_refl eq_refl).
    rewrite le_units_of in H by (assumption || reflexivity). apply Z.leb_le in H.
    rewrite units_of_one in *.
    replace (units_of 2) with (2 * 2 ^ 1074) by (vm_compute; reflexivity). lia.
  - unfold Number.le in *. rewrite FloatAxioms.leb_spec in *. rewrite add_spec.
    unfold finite in F. change (Prim2SF 1) with one_sf in *.
    destruct (Prim2SF score) as [s | [|] | | s m e]; try discriminate; reflexivity.
Qed.

Lemma half_ge_one (z : float) :
  Number.le 2 z = true -> Number.le 1 (z / 2) = true.
Proof.
  unfold Number.le. rewrite !FloatAxioms.leb_spec.
  pose proof (Prim2SF_valid (z / 2)) as VR. pose proof (Prim2SF_valid z) as Vz.
  rewrite div_spec in *. unfold SF64div in *.
  change (Prim2SF 2) with two_sf in *. change (Prim2SF 1) with one_sf.
  destruct (Prim2SF z) as [s | [|] | | s m e]; try discriminate.
  - reflexivity.
  - intros H. cbn [valid_binary] in Vz.
    rewrite SFleb_units in H by (assumption || reflexivity). apply Z.leb_le in H.
    change (Number.units two_sf) with (2 * 2 ^ 1074) in H. cbn [Number.units] in H.
    destruct (bounded_inv m e Vz) as (He & Hm & Hn).
    assert (HE : 0 < 2 ^ (e + 1074)) by (apply Z.pow_pos_nonneg; lia).
    assert (s = false) by (destruct s; [cbn [cond_Zopp] in H; nia | reflexivity]).
    subst s. cbn [cond_Zopp] in H.
    (* at least 2: a normal number with exponent at least -51 *)
    assert (He' : -51 <= e).
    { destruct (Z.le_gt_cases (-51) e) as [? | Hlt]; [assumption | exfalso].
      assert (2 ^ (e + 1074) <= 2 ^ 1022) by (apply Z.pow_le_mono_r; lia).
      change (2 ^ 1074) with (2 ^ 52 * 2 ^ 1022) in H. change (2 ^ 53) with (2 * 2 ^ 52) in Hm.
      assert (0 < 2 ^ 1022) by (apply Z.pow_pos_nonneg; lia).
      generalize dependent (2 ^ 1022). generalize dependent (2 ^ (e + 1074)). intros. nia. }
    destruct Hn as [? | Hn]; [lia|].
    rewrite SFdiv_two_normal in * by (assumption || lia).
    assert (Hal : e - 2 <= grid (Zpos m * 2) (e - 2)).
    { unfold grid, fexp64. rewrite Zdigits2_log2 by lia.
      pose proof (Z.log2_le_mono (2 ^ 52) (Zpos m * 2) ltac:(lia)) as HL.
      rewrite Z.log2_pow2 in HL by lia. lia. }
    apply (round_aux_mono false (Zpos m * 2) (e - 2) (-1074) one_sf
             ltac:(lia) Hal ltac:(lia) ltac:(lia) VR eq_refl eq_refl).
    change (Number.units one_sf) with (2 ^ 1074).
    replace (-1074 - -1074) with 0 by lia. change (2 ^ 0) with 1. rewrite Z.mul_1_r.
    cbn [cond_Zopp].
    replace (e + 1074) with ((e - 2 - -1074) + 1 + 1) in H by lia.
    rewrite !Z.pow_add_r in H by lia. change (2 ^ 1) with 2 in H. lia.
Qed.

(** X3: every score at or above 1, +Infinity included, is drawn pure green. *)
Theorem getColorByScore_high (score : float) :
  Number.le 1 score = true -> getColorByScore score = Some "#00ff00"%string.
Proof.
  intros H. apply shift_ge_two, half_ge_one in H.
  assert (Hn : is_nan ((score + 1) / 2)%float = false).
  { destruct (is_nan ((score + 1) / 2)%float) eqn:E; [|reflexivity].
    apply le_value in H. unfold Number.value in H at 2.
    rewrite is_nan_spec in E. destruct (Prim2SF ((score + 1) / 2)%float); try discriminate E.
    contradiction. }
  pose proof (le_not_lt _ _ H) as Hlt. unfold Number.lt in Hlt.
  unfold getColorByScore. rewrite Math_min_one, Hn, Hlt, Math_max_zero.
  reflexivity.
Qed.

Lemma getColorByScore_high_witness :
  getColorByScore 7 = Some "#00ff00"%string.
Proof. exact (getColorByScore_high 7 eq_refl). Defined.

End ColourOfScore.

Section Extrema.

Import XRat.

Lemma xcompare_antisym (a b : xrat) : XRat.compare b a = CompOpp (XRat.compare a b).
Proof.
  destruct a, b; cbn [XRat.compare CompOpp]; try reflexivity.
  symmetry. apply Qcompare_antisym.
Qed.

Lemma is_nan_value (x : float) : is_nan x = true <-> Number.value x = None.
Proof.
  rewrite is_nan_spec. unfold Number.value.
  destruct (Prim2SF x) as [s | [|] | | s m e]; cbn; split; congruence.
Qed.

Lemma is_nan_false_value (x : float) :
  is_nan x = false -> exists a, Number.value x = Some a.
Proof.
  intros H. destruct (Number.value x) as [a|] eqn:E; [now exists a|].
  apply is_nan_value in E. congruence.
Qed.

(** On Numbers that are not NaN the order is total. *)
Lemma lt_false_le (a b : float) :
  is_nan a = false -> is_nan b = false ->
  Number.lt a b = false -> Number.le b a = true.
Proof.
  intros Na Nb H.
  destruct (is_nan_false_value a Na) as [p Hp].
  destruct (is_nan_false_value b Nb) as [q Hq].
  apply le_value. rewrite Hp, Hq. cbn [ole]. apply xle_compare.
  rewrite xcompare_antisym. intros E.
  assert (L : Number.lt a b = true).
  { apply lt_value. rewrite Hp, Hq. cbn [olt]. apply xlt_compare.
    now destruct (XRat.compare p q). }
  congruence.
Qed.

Lemma le_refl_number (a : float) : is_nan a = false -> Number.le a a = true.
Proof.
  intros Na. destruct (is_nan_false_value a Na) as [p Hp].
  apply le_value. rewrite Hp. apply xle_refl.
Qed.

Lemma lt_le (a b : float) : Number.lt a b = true -> Number.le a b = true.
Proof. intros H. apply le_value, olt_ole, lt_value, H. Qed.

Lemma is_zero_le (h : float) : is_zero h = true -> Number.le h PrimFloat.zero = true /\ Number.le PrimFloat.zero h = true.
Proof. intros H. now apply strict_eq_le. Qed.

Lemma max_loop_spec (l : list float) :
  forall h : float,
    is_nan h = false -> (forall x, In x l -> is_nan x = false) ->
    is_nan (max_loop h l) = false /\
    Number.le h (max_loop h l) = true /\
    (forall x, In x l -> Number.le x (max_loop h l) = true).
Proof.
  induction l as [|n l IH]; intros h Nh Hl; cbn [max_loop].
  - split; [exact Nh|]. split; [now apply le_refl_number | intros x []].
  - assert (Nn : is_nan n = false) by (apply Hl; now left).
    rewrite Nn.
    set (h1 := if is_pos_zero n && is_neg_zero h then PrimFloat.zero else h).
    set (h2 := if (h1 <? n)%float then n else h1).
    assert (N1 : is_nan h1 = false) by (subst h1; now destruct (_ && _)).
    assert (L1 : Number.le h h1 = true).
    { subst h1. destruct (is_pos_zero n && is_neg_zero h) eqn:E.
      - apply andb_prop in E. destruct E as [_ E]. unfold is_neg_zero in E.
        apply andb_prop in E. destruct E as [E _]. now apply is_zero_le.
      - now apply le_refl_number. }
    assert (N2 : is_nan h2 = false) by (subst h2; now destruct (h1 <? n)%float).
    assert (L2 : Number.le h1 h2 = true /\ Number.le n h2 = true).
    { subst h2. destruct (h1 <? n)%float eqn:E.
      - split; [now apply lt_le | now apply le_refl_number].
      - split; [now apply le_refl_number | now apply lt_false_le]. }
    destruct L2 as [L2 L3].
    destruct (IH h2 N2 (fun x Hx => Hl x (or_intror Hx))) as (Nr & Lr & Hr).
    split; [exact Nr|]. split.
    + eauto using number_le_trans.
    + intros x [-> | Hx]; [eauto using number_le_trans | now apply Hr].
Qed.

Lemma min_loop_spec (l : list float) :
  forall h : float,
    is_nan h = false -> (forall x, In x l -> is_nan x = false) ->
    is_nan (min_loop h l) = false /\
    Number.le (min_loop h l) h = true /\
    (forall x, In x l -> Number.le (min_loop h l) x = true).
Proof.
  induction l as [|n l IH]; intros h Nh Hl; cbn [min_loop].
  - split; [exact Nh|]. split; [now apply le_refl_number | intros x []].
  - assert (Nn : is_nan n = false) by (apply Hl; now left).
    rewrite Nn.
    set (h1 := if is_neg_zero n && is_pos_zero h then PrimFloat.neg_zero else h).
    set (h2 := if (n <? h1)%float then n else h1).
    assert (N1 : is_nan h1 = false) by (subst h1; now destruct (_ && _)).
    assert (L1 : Number.le h1 h = true).
    { subst h1. destruct (is_neg_zero n && is_pos_zero h) eqn:E.
      - apply andb_prop in E. destruct E as [_ E]. unfold is_pos_zero in E.
        apply andb_prop in E. destruct E as [E _].
        apply is_zero_le in E. destruct E as [_ E].
        apply number_le_trans with PrimFloat.zero; [reflexivity | exact E].
      - now apply le_refl_number. }
    assert (N2 : is_nan h2 = false) by (subst h2; now destruct (n <? h1)%float).
    assert (L2 : Number.le h2 h1 = true /\ Number.le h2 n = true).
    { subst h2. destruct (n <? h1)%float eqn:E.
      - split; [now apply lt_le | now apply le_refl_number].
      - split; [now apply le_refl_number | now apply lt_false_le]. }
    destruct L2 as [L2 L3].
    destruct (IH h2 N2 (fun x Hx => Hl x (or_intror Hx))) as (Nr & Lr & Hr).
    split; [exact Nr|]. split.
    + eauto using number_le_trans.
    + intros x [-> | Hx]; [eauto using number_le_trans | now apply Hr].
Qed.

(** A NaN argument makes [Math.max] and [Math.min] NaN. *)
Lemma max_loop_nan (l : list float) :
  forall h, (exists x, In x l /\ is_nan x = true) -> max_loop h l = PrimFloat.nan.
Proof.
  induction l as [|n l IH]; intros h (x & Hx & Nx); [destruct Hx|].
  cbn [max_loop]. destruct (is_nan n) eqn:Nn; [reflexivity|].
  apply IH. destruct Hx as [-> | Hx]; [congruence | eauto].
Qed.

Lemma min_loop_nan (l : list float) :
  forall h, (exists x, In x l /\ is_nan x = true) -> min_loop h l = PrimFloat.nan.
Proof.
  induction l as [|n l IH]; intros h (x & Hx & Nx); [destruct Hx|].
  cbn [min_loop]. destruct (is_nan n) eqn:Nn; [reflexivity|].
  apply IH. destruct Hx as [-> | Hx]; [congruence | eauto].
Qed.

End Extrema.

Section AxisBounds.

Import ListNotations.

Lemma units_of_two : units_of 2 = 2 * 2 ^ 1074.
Proof. vm_compute. reflexivity. Qed.

(** Adding the margin never lowers a bound, subtracting it never raises
    one, whatever the rounding. *)
Lemma add_margin_ge (x : float) : is_nan x = false -> Number.le x (x + 2) = true.
Proof.
  intros Nx. destruct (finite x) eqn:F.
  - apply (add_bounds x 2 x F eq_refl F). rewrite units_of_two.
    assert (0 < 2 ^ 1074) by (apply Z.pow_pos_nonneg; lia). lia.
  - unfold Number.le. rewrite FloatAxioms.leb_spec, add_spec.
    rewrite is_nan_spec in Nx. unfold finite in F. change (Prim2SF 2) with two_sf.
    destruct (Prim2SF x) as [s | [|] | | s m e]; try discriminate; reflexivity.
Qed.

Lemma sub_margin_le (x : float) : is_nan x = false -> Number.le (x - 2) x = true.
Proof.
  intros Nx. destruct (finite x) eqn:F.
  - apply (sub_bounds x 2 x F eq_refl F). rewrite units_of_two.
    assert (0 < 2 ^ 1074) by (apply Z.pow_pos_nonneg; lia). lia.
  - unfold Number.le. rewrite FloatAxioms.leb_spec, sub_spec.
    rewrite is_nan_spec in Nx. unfold finite in F. change (Prim2SF 2) with two_sf.
    destruct (Prim2SF x) as [s | [|] | | s m e]; try discriminate; reflexivity.
Qed.

Lemma add_nan_l (y : float) : is_nan (PrimFloat.nan + y)%float = true.
Proof. rewrite is_nan_spec, add_spec. reflexivity. Qed.

Lemma sub_nan_l (y : float) : is_nan (PrimFloat.nan - y)%float = true.
Proof. rewrite is_nan_spec, sub_spec. reflexivity. Qed.

Lemma format_rows_scores (items series75 : list ScoreItem) :
  forall index,
    map row_year (format_rows index items series75) = map year items /\
    map row_score (format_rows index items series75) = map score items.
Proof.
  induction items as [|item rest IH]; intros index; cbn [format_rows map].
  - split; reflexivity.
  - destruct (IH (S index)) as [-> ->]. split; reflexivity.
Qed.





(** X5: the third column never holds NaN or -0; it is 0 as soon as the
    75-series has no item at that position. *)
Theorem score75_at_clean (series75 : list ScoreItem) (index : nat) :
  is_nan (score75_at series75 index) = false /\
  is_neg_zero (score75_at series75 index) = false /\
  ((List.length series75 <= index)%nat -> score75_at series75 index = 0%float).
Proof.
  unfold score75_at. split; [|split].
  - destruct (nth_error series75 index) as [item|]; [|reflexivity].
    unfold truthy. destruct (is_nan (score item)) eqn:E; cbn [orb negb]; [reflexivity|].
    now destruct (is_zero (score item)).
  - destruct (nth_error series75 index) as [item|]; [|reflexivity].
    unfold truthy, is_neg_zero.
    destruct (is_nan (score item)); cbn [orb negb]; [reflexivity|].
    destruct (is_zero (score item)) eqn:E; cbn [negb]; [reflexivity|].
    now rewrite E.
  - intros H. apply nth_error_None in H. now rewrite H.
Qed.

Lemma score75_at_clean_witness :
  score75_at [mkScoreItem "2023" 0.75] 1 = 0%float.
Proof.
  exact (proj2 (proj2 (score75_at_clean [mkScoreItem "2023" 0.75] 1)) (le_n 1)).
Defined.

Lemma in_rows_score (items series75 : list ScoreItem) (index : nat) (row : ChartRow) :
  In row (format_rows index items series75) -> In (row_score row) (map score items).
Proof.
  intros H. destruct (format_rows_scores items series75 index) as [_ <-].
  now apply in_map.
Qed.

(** X6: when no score is NaN, every plotted score lies between the two
    axis bounds the effect sets. *)
Theorem axis_contains_scores (items series75 : list ScoreItem) :
  (forall item, In item items -> is_nan (score item) = false) ->
  exists st,
    on_scores (Some items) (Some series75) = Updated st /\
    forall row, In row (chartData st) ->
      Number.le (ymin st) (row_score row) = true /\
      Number.le (row_score row) (ymax st) = true.
Proof.
  intros Hn. eexists. split; [unfold on_scores; destruct items; reflexivity|].
  cbn [chartData ymin ymax]. intros row Hrow. apply in_rows_score in Hrow.
  assert (Hl : forall x, In x (map score items) -> is_nan x = false).
  { intros x Hx. apply in_map_iff in Hx. destruct Hx as (item & <- & Hi). now apply Hn. }
  destruct (max_loop_spec (map score items) PrimFloat.neg_infinity eq_refl Hl) as (NM & _ & HM).
  destruct (min_loop_spec (map score items) PrimFloat.infinity eq_refl Hl) as (Nm & _ & Hm).
  fold (Math_max (map score items)) in NM, HM. fold (Math_min (map score items)) in Nm, Hm.
  split.
  - apply number_le_trans with (Math_min (map score items)); [now apply sub_margin_le | now apply Hm].
  - apply number_le_trans with (Math_max (map score items)); [now apply HM | now apply add_margin_ge].
Qed.

Lemma axis_contains_scores_witness :
  exists st,
    on_scores (Some [mkScoreItem "2023" 0.5; mkScoreItem "2024" (-0.25)]) (Some []) = Updated st /\
    forall row, In row (chartData st) ->
      Number.le (ymin st) (row_score row) = true /\
      Number.le (row_score row) (ymax st) = true.
Proof.
  apply (axis_contains_scores [mkScoreItem "2023" 0.5; mkScoreItem "2024" (-0.25)] []).
  intros item [<- | [<- | []]]; reflexivity.
Defined.

(** X7: a single NaN score makes both axis bounds NaN. *)
Theorem nan_score_poisons_axis (items series75 : list ScoreItem) :
  (exists item, In item items /\ is_nan (score item) = true) ->
  exists st,
    on_scores (Some items) (Some series75) = Updated st /\
    is_nan (ymax st) = true /\ is_nan (ymin st) = true.
Proof.
  intros (item & Hi & Hn). eexists. split; [unfold on_scores; destruct items; reflexivity|].
  cbn [ymax ymin].
  assert (He : exists x, In x (map score items) /\ is_nan x = true).
  { exists (score item). split; [now apply in_map | exact Hn]. }
  unfold Math_max, Math_min. rewrite (max_loop_nan _ _ He), (min_loop_nan _ _ He).
  split; [apply add_nan_l | apply sub_nan_l].
Qed.

Lemma nan_score_poisons_axis_witness :
  exists st,
    on_scores (Some [mkScoreItem "2023" 0.5; mkScoreItem "2024" PrimFloat.nan]) (Some []) = Updated st /\
    is_nan (ymax st) = true /\ is_nan (ymin st) = true.
Proof.
  apply (nan_score_poisons_axis [mkScoreItem "2023" 0.5; mkScoreItem "2024" PrimFloat.nan] []).
  exists (mkScoreItem "2024" PrimFloat.nan). split; [right; left; reflexivity | reflexivity].
Defined.

End AxisBounds.

Section Tooltip.

Import ListNotations.

(** X9: the tooltip throws exactly when it is active with a payload of one
    entry; it returns [null] exactly when it is inactive or its payload is
    absent or empty; with two entries or more it shows the second entry as
    the quantile score and the first as the average score. *)
Theorem CustomTooltip_outcomes (active : option bool) (payload : option (list TooltipEntry)) :
  (CustomTooltip active payload = RenderError <->
   active = Some true /\ exists e, payload = Some [e])
  /\ (CustomTooltip active payload = Rendered None <->
      active <> Some true \/ payload = None \/ payload = Some [])
  /\ (forall average quantile rest,
        active = Some true -> payload = Some (average :: quantile :: rest) ->
        exists box,
          CustomTooltip active payload = Rendered (Some (JElement "div" box
            [JText "Evaluated quantile score: "; JNumber (entry_value quantile);
             JText " "; JBreak;
             JText "Evaluated average score: "; JNumber (entry_value average)]))).
Proof.
  split; [|split].
  - destruct active as [[|]|], payload as [[|e0 [|e1 rest]]|]; cbn; split; intros H;
      first [ reflexivity
            | discriminate H
            | split; [reflexivity | eexists; reflexivity]
            | destruct H as [E He]; first [discriminate E | destruct He as [e He]; discriminate He] ].
  - destruct active as [[|]|], payload as [[|e0 [|e1 rest]]|]; cbn; split; intros H;
      first [ reflexivity
            | discriminate H
            | left; discriminate
            | right; left; reflexivity
            | right; right; reflexivity
            | destruct H as [H | [H | H]]; first [discriminate H | now elim H] ].
  - intros average quantile rest -> ->. eexists. reflexivity.
Qed.

Lemma CustomTooltip_outcomes_witness :
  CustomTooltip (Some true) (Some [mkTooltipEntry 0.5]) = RenderError.
Proof.
  apply (proj1 (CustomTooltip_outcomes (Some true) (Some [mkTooltipEntry 0.5]))).
  split; [reflexivity | now exists (mkTooltipEntry 0.5)].
Defined.

End Tooltip.

Section FeatureStyle.

(** X10: a feature whose score is a Number other than NaN is filled with
    the colour of that score, a well-formed ["#rrgg00"], whatever its
    [color] property and even when the score is 0; a feature without a score
    is filled with its [color] if that is truthy and with ["transparent"]
    otherwise. *)
Theorem feature_style_fillColor (props : FeatureProps) :
  (forall x : float,
     prop_score props = VNumber x -> is_nan x = false ->
     exists r g : Z,
       0 <= r <= 255 /\ 0 <= g <= 255 /\
       style_fillColor (feature_style props) =
       Some (VString ("#" ++ hex_byte r ++ hex_byte g ++ "00")))
  /\ (is_nullish (prop_score props) = true ->
      style_fillColor (feature_style props) =
      Some (if to_boolean (prop_color props) then prop_color props
            else VString "transparent")).
Proof.
  split.
  - intros x Hs Hn. unfold feature_style. cbn [style_fillColor]. rewrite Hs.
    cbn [is_nullish negb as_number].
    destruct (colour_of_number x Hn) as (r & g & Hr & Hg & E).
    rewrite E. exists r, g. repeat split; try lia.
  - intros Hs. unfold feature_style. cbn [style_fillColor]. now rewrite Hs.
Qed.

Lemma feature_style_fillColor_witness :
  style_fillColor
    (feature_style (mkFeatureProps VUndefined VUndefined VUndefined (VString "") VUndefined VUndefined))
  = Some (VString "transparent").
Proof.
  exact (proj2 (feature_style_fillColor
                  (mkFeatureProps VUndefined VUndefined VUndefined (VString "") VUndefined VUndefined))
               eq_refl).
Defined.

End FeatureStyle.
